(** * remove_duplications_elasticsearch: a shallow embedding and its properties

    The development follows the layout of the Python package:
    - [utils.py]   : [str_to_bool];
    - [config.py]  : the settings read from the environment;
    - [main.py]    : [get_value_from_dict], [get_bulk_actions],
                     [remove_documents], [fetch_all_documents], [main].

    Python values are modelled by an inductive type of JSON-like values,
    exceptions by an inductive type, and the effects of [main.py] (calls to
    the OpenSearch client, log records) by a trace that is threaded through
    a small writer/error monad. *)

From Stdlib Require Import String Ascii ZArith QArith List Lia.
From stdpp Require Import gmap strings list.

Set Warnings "-register-all,-clear-no-such-hyp".

Local Open Scope string_scope.
Local Open Scope list_scope.

(** ** Python strings

    A [str] is modelled by a Rocq [string]; each character stands for a code
    point below 256.  [str.strip] and [str.lower] are written out for that
    range. *)

Module PyStr.

(** Code points that [str.strip()] removes: TAB..CR, FS..US, SPACE,
    NEL (0x85) and NBSP (0xA0). *)
Definition is_whitespace (c : ascii) : bool :=
  let n := N_of_ascii c in
  ((9 <=? n) && (n <=? 13) || (28 <=? n) && (n <=? 32)
   || (n =? 133) || (n =? 160))%N.

(** [str.lower()] on one code point: A-Z and the Latin-1 capitals
    0xC0..0xDE (the multiplication sign 0xD7 apart) move up by 32. *)
Definition lower_char (c : ascii) : ascii :=
  let n := N_of_ascii c in
  if ((65 <=? n) && (n <=? 90)
      || (192 <=? n) && (n <=? 222) && negb (n =? 215))%N
  then ascii_of_N (n + 32) else c.

Fixpoint lower (s : string) : string :=
  match s with
  | EmptyString => EmptyString
  | String c s' => String (lower_char c) (lower s')
  end.

Fixpoint lstrip (s : string) : string :=
  match s with
  | EmptyString => EmptyString
  | String c s' => if is_whitespace c then lstrip s' else s
  end.

Fixpoint rstrip (s : string) : string :=
  match s with
  | EmptyString => EmptyString
  | String c s' =>
      match rstrip s' with
      | EmptyString => if is_whitespace c then EmptyString
                       else String c EmptyString
      | r => String c r
      end
  end.

Definition strip (s : string) : string := rstrip (lstrip s).

(** [s.split(".")]: the pieces between the dots; never the empty list. *)
Fixpoint split_dot (s : string) : list string :=
  match s with
  | EmptyString => [EmptyString]
  | String c s' =>
      if Ascii.eqb c "."%char then EmptyString :: split_dot s'
      else match split_dot s' with
           | [] => [String c EmptyString]
           | w :: ws => String c w :: ws
           end
  end.

End PyStr.

(** ** Exceptions and results *)

Inductive Exn : Type :=
| ValueError (msg : string)
| AttributeError (msg : string)
| TypeError (msg : string)
| ExceptionGroup (msg : string) (excs : list Exn)
| FailedToGetAllEnvironmentVariables
| FailedToFetchDocumentsFromIndex (cause : Exn)
| FailedToRefreshIndex (msg : string) (cause : Exn)
| ClientError (msg : string).

(** What a call does: it returns a value or raises. *)
Inductive outcome (A : Type) : Type :=
| Return (a : A)
| Raise (e : Exn).
Arguments Return {A} a.
Arguments Raise {A} e.

(** ** utils.py *)

Definition true_values : list string := ["true"; "yes"; "y"; "1"; "t"].
Definition false_values : list string := ["false"; "no"; "n"; "0"; "f"].

Definition str_to_bool (string : string) : outcome bool :=
  let normalized := PyStr.lower (PyStr.strip string) in
  if bool_decide (normalized ∈ true_values) then Return true
  else if bool_decide (normalized ∈ false_values) then Return false
  else Raise (ValueError ("Cannot convert " ++ string ++ " to a bool")).

(** ** Python values

    The stored fields of a document are JSON data.  A finite float is kept by
    its exact rational value (Python compares ints and floats exactly); NaN
    and the infinities are not JSON and are left out.  A [dict] keeps its
    items in insertion order. *)

Inductive value : Type :=
| VNone
| VBool (b : bool)
| VInt (n : Z)
| VFloat (q : Q)
| VStr (s : string)
| VList (l : list value)
| VDict (items : list (string * value)).

Definition type_name (v : value) : string :=
  match v with
  | VNone => "NoneType"
  | VBool _ => "bool"
  | VInt _ => "int"
  | VFloat _ => "float"
  | VStr _ => "str"
  | VList _ => "list"
  | VDict _ => "dict"
  end.

(** [data[key]] for a key known to python as [key in data.keys()]. *)
Fixpoint dict_get (key : string) (items : list (string * value)) : option value :=
  match items with
  | [] => None
  | (k, v) :: rest => if String.eqb k key then Some v else dict_get key rest
  end.

(** *** Hashing

    Membership in a Python [set] goes through [hash] and [==].  Numbers hash
    and compare by value ([True == 1 == 1.0]); lists and dicts are
    unhashable.  [HKey] is the class of a hashable value under [==]: a
    number is kept as a fraction in lowest terms. *)

Inductive HKey : Type :=
| KNone
| KNum (num : Z) (den : positive)
| KStr (s : string).

Global Instance HKey_eq_dec : EqDecision HKey.
Proof. solve_decision. Defined.

Definition HKey_to_sum (k : HKey) : unit + (Z * positive + string) :=
  match k with
  | KNone => inl tt
  | KNum n d => inr (inl (n, d))
  | KStr s => inr (inr s)
  end.

Definition HKey_of_sum (k : unit + (Z * positive + string)) : HKey :=
  match k with
  | inl _ => KNone
  | inr (inl (n, d)) => KNum n d
  | inr (inr s) => KStr s
  end.

Global Instance HKey_countable : Countable HKey.
Proof. apply (inj_countable' HKey_to_sum HKey_of_sum). by intros []. Defined.

Definition num_key (q : Q) : HKey := KNum (Qnum (Qred q)) (Qden (Qred q)).

Definition py_hash (v : value) : outcome HKey :=
  match v with
  | VNone => Return KNone
  | VBool b => Return (num_key (if b then 1 else 0)%Q)
  | VInt n => Return (num_key (inject_Z n))
  | VFloat q => Return (num_key q)
  | VStr s => Return (KStr s)
  | VList _ | VDict _ =>
      Raise (TypeError ("unhashable type: '" ++ type_name v ++ "'"))
  end.

(** ** Documents and bulk actions *)

(** A hit of the index scan: [doc["_id"]] and [doc["_source"]]. *)
Record Document : Type := mkDocument {
  _id : string;
  _source : value
}.

(** A bulk action is the [dict[str, str]] that [get_bulk_actions] builds. *)
Definition Action : Type := list (string * string).

Definition delete_action (index id : string) : Action :=
  [("_op_type", "delete"); ("_index", index); ("_id", id)].

(** ** The effects of main.py

    Log records are kept by their format and arguments. *)

Inductive LogMsg : Type :=
| MsgRemoved (n : nat) (index : string)
    (* Removed '{len(actions)}' duplicates from '{index}'. *)
| MsgFailedComparisonField (id comparison_field : string)
    (* failed to get the document _id '{..}' comparison field '{..}' value *)
| MsgFoundDocuments (n : nat) (index : string)
    (* Found '{..}' documents inside '{..}' index *)
| MsgFoundDuplicated (n : nat)
    (* Found '{len(bulk_actions)}' duplicated documents *)
| MsgNoDuplicates (index : string)
    (* No duplicates found in '{..}'. *)
| MsgBulkActions
    (* Bulk Actions: *)
| MsgJsonDumps (action : Action).
    (* json.dumps(action, indent=4) *)

Inductive Event : Type :=
| NewOpenSearch (url user password : string)
| HelpersScan (index : string)
| HelpersBulk (actions : list Action)
| IndicesRefresh (index : string)
| LoggerInfo (m : LogMsg)
| LoggerException (m : LogMsg) (e : Exn).

(** Calls that reach the index through the client. *)
Definition is_index_access (ev : Event) : bool :=
  match ev with
  | HelpersScan _ | HelpersBulk _ | IndicesRefresh _ => true
  | _ => false
  end.

(** Calls that can change what the index holds or shows. *)
Definition is_mutation (ev : Event) : bool :=
  match ev with
  | HelpersBulk _ | IndicesRefresh _ => true
  | _ => false
  end.

Section Effects.

(** [S] is the state of the cluster behind the client. *)
Context {S : Type}.

Record World : Type := mkWorld {
  cluster : S;
  trace : list Event
}.

Definition M (A : Type) : Type := World -> outcome A * World.

Definition ret {A} (a : A) : M A := fun w => (Return a, w).

Definition raise {A} (e : Exn) : M A := fun w => (Raise e, w).

Definition bind {A B} (m : M A) (f : A -> M B) : M B :=
  fun w =>
    match m w with
    | (Return a, w') => f a w'
    | (Raise e, w') => (Raise e, w')
    end.

(** [try: m  except Exception as e: h e]. *)
Definition try_except {A} (m : M A) (h : Exn -> M A) : M A :=
  fun w =>
    match m w with
    | (Return a, w') => (Return a, w')
    | (Raise e, w') => h e w'
    end.

Definition emit (ev : Event) : M unit :=
  fun w => (Return tt, mkWorld (cluster w) (trace w ++ [ev])).

Definition lift {A} (o : outcome A) : M A := fun w => (o, w).

End Effects.

Arguments World : clear implicits.
Arguments M : clear implicits.

Global Instance M_ret {S} : MRet (M S) := fun A a => ret a.
Global Instance M_bind {S} : MBind (M S) := fun A B f m => bind m f.

(** ** main.py *)

(** The loop of [get_value_from_dict]: [data] is rebound at each key. *)
Fixpoint walk_keys (keys : list string) (data : value) : outcome value :=
  match keys with
  | [] => Return data
  | key :: keys' =>
      match data with
      | VDict items =>
          match dict_get key items with
          | Some v => walk_keys keys' v
          | None =>
              Raise (ValueError ("Key " ++ key ++ " not found in the dictionary"))
          end
      | _ =>
          (* data.keys() on a value that is not a dict *)
          Raise (AttributeError
                   ("'" ++ type_name data ++ "' object has no attribute 'keys'"))
      end
  end.

Definition get_value_from_dict (dot_notation_string : string) (data : value)
  : outcome value :=
  let keys := PyStr.split_dot dot_notation_string in
  walk_keys keys data.

(** The three locals of [get_bulk_actions]. *)
Record Locals : Type := mkLocals {
  seen_values : gset HKey;
  bulk_actions : list Action;
  exceptions : list Exn
}.

Definition init_locals : Locals := mkLocals ∅ [] [].

Section GetBulkActions.

Context {S : Type}.
Variables (comparison_field index : string).

(** One turn of [for doc in documents]. *)
Definition loop_body (doc : Document) (st : Locals) : M S Locals :=
  match get_value_from_dict comparison_field (_source doc) with
  | Raise e =>
      emit (LoggerException
              (MsgFailedComparisonField (_id doc) comparison_field) e);;
      mret (mkLocals (seen_values st) (bulk_actions st) (exceptions st ++ [e]))
  | Return unique_field_value =>
      (* the else clause is outside the try *)
      k ← lift (py_hash unique_field_value);
      if bool_decide (k ∈ seen_values st) then
        mret (mkLocals (seen_values st)
                (bulk_actions st ++ [delete_action index (_id doc)])
                (exceptions st))
      else
        mret (mkLocals ({[k]} ∪ seen_values st) (bulk_actions st)
                (exceptions st))
  end.

Fixpoint for_doc_in (documents : list Document) (st : Locals) : M S Locals :=
  match documents with
  | [] => mret st
  | doc :: rest => st' ← loop_body doc st; for_doc_in rest st'
  end.

Definition get_bulk_actions (documents : list Document) : M S (list Action) :=
  st ← for_doc_in documents init_locals;
  if (0 <? length (exceptions st))%nat then
    raise (ExceptionGroup "failed to get all documents comparable field"
             (exceptions st))
  else mret (bulk_actions st).

End GetBulkActions.

(** *** The client

    [OpenSearch] and [opensearchpy.helpers] are not part of the package: the
    client is given by what its three calls answer in a cluster state.  The
    scan only reads; the documents it yields are taken as a finite list, and
    a scan that fails is taken to fail at the call.
    [helpers_bulk] answers with the value the code binds to [bulk_errors]. *)

Record OpenSearch (S : Type) : Type := mkOpenSearch {
  helpers_scan : string -> S -> outcome (list Document);
  helpers_bulk : list Action -> S -> outcome (list Exn) * S;
  indices_refresh : string -> S -> outcome unit * S
}.
Arguments helpers_scan {S}.
Arguments helpers_bulk {S}.
Arguments indices_refresh {S}.

(** *** config.py: [os.environ.get] gives [None] for an unset variable. *)

Record Config : Type := mkConfig {
  ES_URL : option string;
  ES_USER : option string;
  ES_PASSWORD : option string;
  ES_INDEX : option string;
  DOCUMENT_COMPARISON_FIELD : option string;
  LOG_LEVEL : string;
  DRY_RUN : string
}.

(** The module body of config.py, run in an environment: [INDEX] is the
    variable behind [ES_INDEX]; [LOG_LEVEL] and [DRY_RUN] have defaults. *)
Definition load_config (environ : gmap string string) : Config :=
  mkConfig (environ !! "ES_URL") (environ !! "ES_USER")
    (environ !! "ES_PASSWORD") (environ !! "INDEX")
    (environ !! "DOCUMENT_COMPARISON_FIELD")
    (default "INFO" (environ !! "LOG_LEVEL"))
    (default "false" (environ !! "DRY_RUN")).

Section Main.

Context {S : Type}.
Variable opensearch_client : OpenSearch S.

Definition call_scan (index : string) : M S (list Document) :=
  fun w =>
    (helpers_scan opensearch_client index (cluster w),
     mkWorld (cluster w) (trace w ++ [HelpersScan index])).

Definition call_bulk (actions : list Action) : M S (list Exn) :=
  fun w =>
    let (r, c) := helpers_bulk opensearch_client actions (cluster w) in
    (r, mkWorld c (trace w ++ [HelpersBulk actions])).

Definition call_refresh (index : string) : M S unit :=
  fun w =>
    let (r, c) := indices_refresh opensearch_client index (cluster w) in
    (r, mkWorld c (trace w ++ [IndicesRefresh index])).

Definition remove_documents (actions : list Action) (index : string)
  : M S unit :=
  bulk_errors ← call_bulk actions;
  emit (LoggerInfo (MsgRemoved (length actions) index));;
  try_except (call_refresh index)
    (fun e => raise (FailedToRefreshIndex
                       ("failed to refresh index: " ++ index) e));;
  if (0 <? length bulk_errors)%nat then
    raise (ExceptionGroup "faild to bulk some of the remove actions"
             bulk_errors)
  else mret tt.

Definition fetch_all_documents (index_name : string) : M S (list Document) :=
  call_scan index_name.

(** [for action in bulk_actions: logger.info(json.dumps(action, indent=4))] *)
Fixpoint log_actions (actions : list Action) : M S unit :=
  match actions with
  | [] => mret tt
  | action :: rest =>
      emit (LoggerInfo (MsgJsonDumps action));; log_actions rest
  end.

Definition main (config : Config) : M S unit :=
  match ES_INDEX config, ES_URL config, ES_USER config,
        ES_PASSWORD config, DOCUMENT_COMPARISON_FIELD config with
  | Some es_index, Some es_url, Some es_user, Some es_password,
    Some comparison_field =>
      emit (NewOpenSearch es_url es_user es_password);;
      documents ←
        try_except (fetch_all_documents es_index)
          (fun e => raise (FailedToFetchDocumentsFromIndex e));
      (* tee(documents, 1) is a tuple of one iterator *)
      let log_documents := [documents] in
      emit (LoggerInfo (MsgFoundDocuments (length log_documents) es_index));;
      bulk_actions ← get_bulk_actions comparison_field es_index documents;
      emit (LoggerInfo (MsgFoundDuplicated (length bulk_actions)));;
      if (length bulk_actions =? 0)%nat then
        emit (LoggerInfo (MsgNoDuplicates es_index))
      else
        dry_run_mode ← lift (str_to_bool (DRY_RUN config));
        if (dry_run_mode : bool) then
          emit (LoggerInfo MsgBulkActions);;
          log_actions bulk_actions
        else
          remove_documents bulk_actions es_index
  | _, _, _, _, _ => raise FailedToGetAllEnvironmentVariables
  end.

End Main.

(** ** The vocabulary of the properties

    What follows describes sequences of documents by position; the scan
    itself is above. *)

(** The documents of a sequence picked by position and content, in order. *)
Definition select (P : nat → Document → bool) (docs : list Document)
  : list Document :=
  (filter (λ p, P p.1 p.2 = true) (imap pair docs)).*2.

(** *** How the scan treats one document

    A document is of exactly one of three kinds for a comparison field: the
    extraction raises ([doc_failure]), it returns an unhashable value
    ([doc_unhashable]), or it returns a value with a key ([doc_key]). *)

Section Classification.

Variable comparison_field : string.

Definition doc_failure (doc : Document) : option Exn :=
  match get_value_from_dict comparison_field (_source doc) with
  | Raise e => Some e
  | Return _ => None
  end.

Definition doc_unhashable (doc : Document) : option Exn :=
  match get_value_from_dict comparison_field (_source doc) with
  | Raise _ => None
  | Return v => match py_hash v with Raise e => Some e | Return _ => None end
  end.

Definition doc_key (doc : Document) : option HKey :=
  match get_value_from_dict comparison_field (_source doc) with
  | Raise _ => None
  | Return v => match py_hash v with Raise _ => None | Return k => Some k end
  end.

Definition failure_log (doc : Document) : option Event :=
  e ← doc_failure doc;
  Some (LoggerException
          (MsgFailedComparisonField (_id doc) comparison_field) e).

(** The keys, the extraction errors and the log records of a sequence, in
    scan order. *)
Definition keys_of (docs : list Document) : list HKey := omap doc_key docs.
Definition failures_of (docs : list Document) : list Exn :=
  omap doc_failure docs.
Definition failure_logs (docs : list Document) : list Event :=
  omap failure_log docs.

(** The document at position [i] has a key that an earlier document of
    [docs] has too. *)
Definition is_later_occurrence (docs : list Document) (i : nat)
    (doc : Document) : bool :=
  match doc_key doc with
  | Some k => bool_decide (k ∈ keys_of (take i docs))
  | None => false
  end.

Definition later_occurrences (docs : list Document) : list Document :=
  select (is_later_occurrence docs) docs.

(** The documents that are kept: those with a key that no earlier document
    has. *)
Definition is_first_occurrence (docs : list Document) (i : nat)
    (doc : Document) : bool :=
  match doc_key doc with
  | Some k => bool_decide (k ∉ keys_of (take i docs))
  | None => false
  end.

Definition first_occurrences (docs : list Document) : list Document :=
  select (is_first_occurrence docs) docs.

(** No unhashable value: the extraction raises or gives a key. *)
Definition hashable_or_failing (doc : Document) : Prop :=
  doc_unhashable doc = None.

End Classification.

(** What the scan has decided about the documents: the seen keys and the
    delete actions, or the exception that ended it. *)
Definition classification (o : outcome Locals)
  : outcome (gset HKey * list Action) :=
  match o with
  | Return st => Return (seen_values st, bulk_actions st)
  | Raise e => Raise e
  end.

(** What the index does with the delete actions: the documents whose
    identifier an action names are gone. *)
Fixpoint action_get (key : string) (action : Action) : option string :=
  match action with
  | [] => None
  | (k, v) :: rest => if String.eqb k key then Some v else action_get key rest
  end.

Definition deleted_ids (actions : list Action) : list string :=
  omap (action_get "_id") actions.

Definition remove_deleted (actions : list Action) (docs : list Document)
  : list Document :=
  filter (λ doc, _id doc ∉ deleted_ids actions) docs.

Definition is_dict (v : value) : bool :=
  match v with VDict _ => true | _ => false end.

(** The actions a run has logged through [json.dumps], and the batches it
    has submitted. *)
Definition dumped_actions (evs : list Event) : list Action :=
  omap (λ ev, match ev with
              | LoggerInfo (MsgJsonDumps action) => Some action
              | _ => None
              end) evs.

Definition submitted_batches (evs : list Event) : list (list Action) :=
  omap (λ ev, match ev with
              | HelpersBulk actions => Some actions
              | _ => None
              end) evs.

Definition with_dry_run (config : Config) (dry_run : string) : Config :=
  mkConfig (ES_URL config) (ES_USER config) (ES_PASSWORD config)
    (ES_INDEX config) (DOCUMENT_COMPARISON_FIELD config) (LOG_LEVEL config)
    dry_run.

(** *** Strings and paths *)

(** Only characters that [str.strip()] removes. *)
Fixpoint blank (s : string) : bool :=
  match s with
  | EmptyString => true
  | String c s' => PyStr.is_whitespace c && blank s'
  end.

Fixpoint has_dot (s : string) : bool :=
  match s with
  | EmptyString => false
  | String c s' => Ascii.eqb c "."%char || has_dot s'
  end.

(** [".".join(keys)] *)
Fixpoint join_dot (keys : list string) : string :=
  match keys with
  | [] => ""
  | [key] => key
  | key :: rest => key ++ "." ++ join_dot rest
  end.

(** The mapping that holds [v] under the keys [keys], one inside the
    other. *)
Definition nest (keys : list string) (v : value) : value :=
  foldr (λ key inner, VDict [(key, inner)]) v keys.

(** A mapping without its entries named [key]. *)
Definition without_key (key : string) (items : list (string * value))
  : list (string * value) :=
  filter (λ item, item.1 ≠ key) items.

(** ** Sample documents, clients and settings *)

Definition w0 : World unit := mkWorld tt [].

Definition docABAA : list Document :=
  [ mkDocument "1" (VDict [("key", VStr "A")]);
    mkDocument "2" (VDict [("key", VStr "B")]);
    mkDocument "3" (VDict [("key", VStr "A")]);
    mkDocument "4" (VDict [("key", VStr "A")]) ].

(** A document whose comparison path leads to a nested mapping. *)
Definition doc_nested : Document :=
  mkDocument "1" (VDict [("job", VDict [("build_id", VInt 7)])]).

(** A document without the field [key] (and without [job], [tags]). *)
Definition doc_missing : Document := mkDocument "9" (VDict [("other", VInt 1)]).

Definition docs_missing_B : list Document :=
  [ mkDocument "1" (VDict [("key", VStr "A")]); doc_missing;
    mkDocument "3" (VDict [("key", VStr "A")]);
    mkDocument "4" (VDict [("key", VStr "B")]);
    mkDocument "5" (VDict [("key", VInt 5); ("other", VNone)]);
    mkDocument "6" (VDict [("nokey", VNone)]) ].



(** A cluster that holds a list of documents: the scan yields them, a
    delete action removes the documents with its identifier. *)
Definition delete_by_id (actions : list Action) (docs : list Document)
  : list Document := remove_deleted actions docs.

Definition healthy_client : OpenSearch (list Document) :=
  mkOpenSearch (list Document)
    (fun _ docs => Return docs)
    (fun actions docs => (Return [], delete_by_id actions docs))
    (fun _ docs => (Return tt, docs)).


Definition example_config (dry_run : string) : Config :=
  mkConfig (Some "https://opensearch:9200") (Some "admin") (Some "secret")
    (Some "jobs") (Some "key") "INFO" dry_run.

Definition world_ABAA : World (list Document) := mkWorld docABAA [].

Definition config_without_url : Config :=
  mkConfig None (Some "admin") (Some "secret") (Some "jobs") (Some "key")
    "INFO" "maybe".

(** An environment without [DRY_RUN] and [LOG_LEVEL]. *)
Definition environ_ABAA : gmap string string :=
  <["INDEX" := "jobs"]> (<["ES_URL" := "https://opensearch:9200"]>
  (<["ES_USER" := "admin"]> (<["ES_PASSWORD" := "secret"]>
  (<["DOCUMENT_COMPARISON_FIELD" := "key"]> ∅)))).


(** * Properties *)

(** ** utils.py *)

Example str_to_bool_yes : str_to_bool "  YES " = Return true.
Proof. reflexivity. Qed.

Example str_to_bool_zero : str_to_bool "0" = Return false.
Proof. reflexivity. Qed.

Example str_to_bool_nbsp_tab :
  str_to_bool (String (ascii_of_N 160) (String (ascii_of_N 9) "True  "))
  = Return true.
Proof. reflexivity. Qed.

Example str_to_bool_inner_space :
  str_to_bool "tr ue" = Raise (ValueError "Cannot convert tr ue to a bool").
Proof. reflexivity. Qed.

Example split_dot_examples :
  PyStr.split_dot "job.build_id" = ["job"; "build_id"]
  ∧ PyStr.split_dot "" = [""]
  ∧ PyStr.split_dot "a..b." = ["a"; ""; "b"; ""].
Proof. by split_and!. Qed.

Example str_to_bool_maybe :
  str_to_bool "maybe" = Raise (ValueError "Cannot convert maybe to a bool").
Proof. reflexivity. Qed.





(** ** The three kinds of documents *)

Section ClassificationFacts.

Variable comparison_field : string.

Lemma doc_kind (doc : Document) :
  (∃ e, doc_failure comparison_field doc = Some e ∧ doc_unhashable comparison_field doc = None
        ∧ doc_key comparison_field doc = None)
  ∨ (∃ e, doc_failure comparison_field doc = None ∧ doc_unhashable comparison_field doc = Some e
          ∧ doc_key comparison_field doc = None)
  ∨ (∃ k, doc_failure comparison_field doc = None ∧ doc_unhashable comparison_field doc = None
          ∧ doc_key comparison_field doc = Some k).
Proof.
  unfold doc_failure, doc_unhashable, doc_key.
  destruct (get_value_from_dict _ _) as [v|e]; [|eauto 10].
  destruct (py_hash v); eauto 10.
Qed.

Lemma is_later_occurrence_spec docs i doc :
  is_later_occurrence comparison_field docs i doc = true
  ↔ ∃ k j doc', doc_key comparison_field doc = Some k ∧ (j < i)%nat ∧ docs !! j = Some doc'
                ∧ doc_key comparison_field doc' = Some k.
Proof.
  unfold is_later_occurrence, keys_of. split.
  - destruct (doc_key comparison_field doc) as [k|] eqn:Hk; [|done].
    rewrite bool_decide_eq_true, list_elem_of_omap.
    intros (doc' & Hin & Hk'). apply list_elem_of_lookup in Hin as [j Hj].
    apply lookup_take_Some in Hj as [Hj Hlt]. eauto 10.
  - intros (k & j & doc' & -> & Hlt & Hj & Hk').
    rewrite bool_decide_eq_true, list_elem_of_omap.
    exists doc'. split; [|done]. apply list_elem_of_lookup. exists j.
    by apply lookup_take_Some.
Qed.

End ClassificationFacts.


(** ** The scan loop *)

Section ScanFacts.

Context {S : Type}.
Variables (comparison_field index : string).

Local Abbreviation body := (loop_body (S:=S) comparison_field index).
Local Abbreviation scan := (for_doc_in (S:=S) comparison_field index).
Local Abbreviation key := (doc_key comparison_field).
Local Abbreviation keys := (keys_of comparison_field).
Local Abbreviation failures := (failures_of comparison_field).
Local Abbreviation logs := (failure_logs comparison_field).
Local Abbreviation later := (later_occurrences comparison_field).

Lemma loop_body_failure doc e st (w : World S) :
  doc_failure comparison_field doc = Some e →
  body doc st w
  = (Return (mkLocals (seen_values st) (bulk_actions st)
               (exceptions st ++ [e])),
     mkWorld (cluster w)
       (trace w ++ [LoggerException
                      (MsgFailedComparisonField (_id doc) comparison_field)
                      e])).
Proof.
  unfold doc_failure, loop_body. intros H.
  destruct (get_value_from_dict _ _); by simplify_eq.
Qed.

Lemma loop_body_unhashable doc e st (w : World S) :
  doc_unhashable comparison_field doc = Some e →
  body doc st w = (Raise e, w).
Proof.
  unfold doc_unhashable, loop_body. intros H.
  destruct (get_value_from_dict _ _) as [v|]; [|done].
  destruct (py_hash v); by simplify_eq.
Qed.

Lemma loop_body_keyed doc k st (w : World S) :
  key doc = Some k →
  body doc st w
  = (Return (if bool_decide (k ∈ seen_values st)
             then mkLocals (seen_values st)
                    (bulk_actions st ++ [delete_action index (_id doc)])
                    (exceptions st)
             else mkLocals ({[k]} ∪ seen_values st) (bulk_actions st)
                    (exceptions st)),
     w).
Proof.
  unfold doc_key, loop_body. intros H.
  destruct (get_value_from_dict _ _) as [v|]; [|done].
  destruct (py_hash v); simplify_eq. cbn.
  unfold mbind, M_bind, bind, lift. by case_bool_decide.
Qed.

Lemma for_doc_in_app docs1 docs2 st (w : World S) :
  scan (docs1 ++ docs2) st w
  = match scan docs1 st w with
    | (Return st', w') => scan docs2 st' w'
    | (Raise e, w') => (Raise e, w')
    end.
Proof.
  revert st w. induction docs1 as [|doc docs1 IH]; intros st w; [done|].
  cbn. unfold mbind, M_bind, bind.
  destruct (body doc st w) as [[st'|e] w']; [apply IH|done].
Qed.

Lemma for_doc_in_snoc docs doc st (w : World S) :
  scan (docs ++ [doc]) st w
  = match scan docs st w with
    | (Return st', w') => body doc st' w'
    | (Raise e, w') => (Raise e, w')
    end.
Proof.
  rewrite for_doc_in_app. destruct (scan docs st w) as [[st'|e] w']; [|done].
  cbn. unfold mbind, M_bind, bind.
  by destruct (body doc st' w') as [[?|?] ?].
Qed.

(** *** The positional description, one document at a time *)

Lemma filter_ext_elem {A} (P Q : A → Prop) `{!∀ x, Decision (P x)}
    `{!∀ x, Decision (Q x)} (l : list A) :
  (∀ x, x ∈ l → P x ↔ Q x) → filter P l = filter Q l.
Proof.
  induction l as [|x l IH]; intros Hext; [done|].
  rewrite !filter_cons.
  destruct (decide (P x)) as [HP|HP], (decide (Q x)) as [HQ|HQ].
  - f_equal. apply IH. intros y Hy. apply Hext. by right.
  - exfalso. apply HQ, Hext; [by left|done].
  - exfalso. apply HP, Hext; [by left|done].
  - apply IH. intros y Hy. apply Hext. by right.
Qed.

Lemma keys_of_snoc docs doc :
  keys (docs ++ [doc]) = keys docs ++ option_list (key doc).
Proof. unfold keys_of. rewrite omap_app. cbn. by destruct (key doc). Qed.

Lemma failures_of_snoc docs doc :
  failures (docs ++ [doc])
  = failures docs ++ option_list (doc_failure comparison_field doc).
Proof.
  unfold failures_of. rewrite omap_app. cbn.
  by destruct (doc_failure _ doc).
Qed.

Lemma failure_logs_snoc docs doc :
  logs (docs ++ [doc])
  = logs docs ++ option_list (failure_log comparison_field doc).
Proof.
  unfold failure_logs. rewrite omap_app. cbn.
  by destruct (failure_log _ doc).
Qed.

Lemma is_later_occurrence_prefix docs docs' i doc :
  (i ≤ length docs)%nat →
  is_later_occurrence comparison_field (docs ++ docs') i doc
  = is_later_occurrence comparison_field docs i doc.
Proof.
  intros Hi. unfold is_later_occurrence. by rewrite take_app_le.
Qed.

Lemma later_occurrences_snoc docs doc :
  later (docs ++ [doc])
  = later docs
    ++ (if is_later_occurrence comparison_field docs (length docs) doc
        then [doc] else []).
Proof.
  unfold later_occurrences, select.
  rewrite imap_app, filter_app, fmap_app. f_equal.
  - f_equal. apply filter_ext_elem. intros [i d] Hin. cbn.
    apply elem_of_lookup_imap in Hin as (j & d' & [= -> ->] & Hj).
    apply lookup_lt_Some in Hj.
    rewrite is_later_occurrence_prefix by lia. done.
  - rewrite imap_cons, imap_nil, filter_cons, filter_nil. cbn.
    rewrite Nat.add_0_r, is_later_occurrence_prefix by lia.
    destruct (is_later_occurrence _ docs (length docs) doc); by case_decide.
Qed.

(** *** What the loop computes

    As long as no extracted value is unhashable the loop runs to the end
    of the sequence; its locals are then given by the positional
    description, and it has logged one record per extraction error. *)

Lemma for_doc_in_spec docs (w : World S) :
  Forall (hashable_or_failing comparison_field) docs →
  scan docs init_locals w
  = (Return (mkLocals (list_to_set (keys docs))
               (delete_action index ∘ _id <$> later docs)
               (failures docs)),
     mkWorld (cluster w) (trace w ++ logs docs)).
Proof.
  induction docs as [|doc docs IH] using rev_ind; intros Hall.
  - destruct w. cbn. by rewrite app_nil_r.
  - apply Forall_app in Hall as [Hdocs Hdoc%Forall_inv].
    rewrite for_doc_in_snoc, IH by done. clear IH.
    rewrite keys_of_snoc, failures_of_snoc, failure_logs_snoc.
    rewrite later_occurrences_snoc, fmap_app, list_to_set_app_L.
    unfold is_later_occurrence, failure_log. rewrite take_ge by lia.
    destruct (doc_kind comparison_field doc)
      as [(e & He & _ & Hk)|[(e & _ & He & _)|(k & He & _ & Hk)]];
      [|unfold hashable_or_failing in Hdoc; congruence|].
    + rewrite (loop_body_failure _ e) by done. rewrite He, Hk. cbn.
      rewrite !app_nil_r, app_assoc. do 3 f_equal. set_solver.
    + rewrite (loop_body_keyed _ k) by done. rewrite He, Hk. cbn.
      rewrite !app_nil_r.
      do 2 f_equal.
      case_bool_decide as Hin; rewrite elem_of_list_to_set in Hin.
      * rewrite bool_decide_eq_true_2 by done. cbn. f_equal. set_solver.
      * rewrite bool_decide_eq_false_2 by done. cbn.
        rewrite app_nil_r. f_equal. set_solver.
Qed.

(** The first unhashable value stops the loop where it stands. *)
Lemma for_doc_in_unhashable docs doc rest e (w : World S) :
  Forall (hashable_or_failing comparison_field) docs →
  doc_unhashable comparison_field doc = Some e →
  scan (docs ++ doc :: rest) init_locals w
  = (Raise e, mkWorld (cluster w) (trace w ++ logs docs)).
Proof.
  intros Hdocs He.
  rewrite for_doc_in_app, for_doc_in_spec by done. cbn.
  unfold mbind, M_bind, bind.
  by rewrite (loop_body_unhashable _ e).
Qed.

(** *** Counting *)

Lemma later_occurrences_count docs :
  (length (later docs) + size (list_to_set (keys docs) : gset HKey)
   = length (keys docs))%nat.
Proof.
  induction docs as [|doc docs IH] using rev_ind; [done|].
  rewrite later_occurrences_snoc, keys_of_snoc, list_to_set_app_L.
  rewrite !length_app. unfold is_later_occurrence.
  rewrite take_ge by lia.
  destruct (key doc) as [k|]; cbn.
  - case_bool_decide as Hin.
    + replace (list_to_set (keys docs) ∪ ({[k]} ∪ ∅))
        with (list_to_set (keys docs) : gset HKey) by set_solver.
      cbn. lia.
    + rewrite size_union, size_union, size_singleton, size_empty
        by set_solver.
      cbn. lia.
  - rewrite (right_id_L ∅ (∪)). lia.
Qed.

Lemma keys_of_length docs :
  Forall (λ doc, is_Some (key doc)) docs → length (keys docs) = length docs.
Proof.
  induction 1 as [|doc docs [k Hk] _ IH]; [done|].
  unfold keys_of in *. cbn. rewrite Hk. cbn. by rewrite IH.
Qed.

Lemma keyed_hashable_or_failing docs :
  Forall (λ doc, is_Some (key doc)) docs → Forall (hashable_or_failing comparison_field) docs.
Proof.
  intros Hall. eapply Forall_impl; [exact Hall|].
  intros doc [k Hk]. unfold hashable_or_failing.
  destruct (doc_kind comparison_field doc)
    as [(e & _ & ? & _)|[(e & _ & _ & ?)|(k' & _ & ? & _)]]; congruence.
Qed.

Lemma keyed_failures_nil docs :
  Forall (λ doc, is_Some (key doc)) docs →
  failures docs = [] ∧ logs docs = [].
Proof.
  induction 1 as [|doc docs [k Hk] _ [IH1 IH2]]; [done|].
  unfold failures_of, failure_logs, failure_log in *. cbn.
  destruct (doc_kind comparison_field doc)
    as [(e & _ & _ & ?)|[(e & _ & _ & ?)|(k' & -> & _ & _)]];
    [congruence..|].
  cbn. by rewrite IH1, IH2.
Qed.

(** Each key has one first document; every other document with that key
    comes later and is a later occurrence. *)
Lemma first_document_of_key docs k :
  k ∈ keys docs →
  ∃ i doc,
    docs !! i = Some doc ∧ key doc = Some k
    ∧ is_later_occurrence comparison_field docs i doc = false
    ∧ ∀ j doc', docs !! j = Some doc' → key doc' = Some k → j ≠ i →
                (i < j)%nat
                ∧ is_later_occurrence comparison_field docs j doc' = true.
Proof.
  intros (doc0 & Hin & Hk0)%list_elem_of_omap.
  destruct (list_find_elem_of (λ d, key d = Some k) docs doc0 Hin Hk0)
    as [[i doc] Hfind].
  apply list_find_Some in Hfind as (Hi & Hk & Hmin).
  exists i, doc. split_and!; [done..| |].
  - apply not_true_is_false. intros Hlater.
    apply is_later_occurrence_spec
      in Hlater as (k' & j & doc' & Hk' & Hlt & Hj & Hkj).
    apply (Hmin j doc' Hj Hlt). congruence.
  - intros j doc' Hj Hkj Hne.
    assert (i < j)%nat as Hlt.
    { destruct (decide (j < i)%nat) as [Hji|]; [|lia].
      by destruct (Hmin j doc' Hj Hji). }
    split; [done|]. apply is_later_occurrence_spec. eauto 10.
Qed.

(** *** [get_bulk_actions] after the loop *)

Lemma get_bulk_actions_spec docs (w : World S) :
  Forall (hashable_or_failing comparison_field) docs →
  get_bulk_actions comparison_field index docs w
  = (match failures docs with
     | [] => Return (delete_action index ∘ _id <$> later docs)
     | _ :: _ =>
         Raise (ExceptionGroup "failed to get all documents comparable field"
                  (failures docs))
     end,
     mkWorld (cluster w) (trace w ++ logs docs)).
Proof.
  intros Hall. unfold get_bulk_actions, mbind, M_bind, bind.
  rewrite for_doc_in_spec by done. cbn.
  by destruct (failures docs).
Qed.

Lemma get_bulk_actions_unhashable docs doc rest e (w : World S) :
  Forall (hashable_or_failing comparison_field) docs →
  doc_unhashable comparison_field doc = Some e →
  get_bulk_actions comparison_field index (docs ++ doc :: rest) w
  = (Raise e, mkWorld (cluster w) (trace w ++ logs docs)).
Proof.
  intros Hall He. unfold get_bulk_actions, mbind, M_bind, bind.
  by rewrite (for_doc_in_unhashable _ _ _ e).
Qed.

End ScanFacts.

Example get_bulk_actions_ABAA :
  get_bulk_actions "key" "idx" docABAA w0
  = (Return [delete_action "idx" "3"; delete_action "idx" "4"], w0).
Proof. vm_compute. reflexivity. Qed.

(** ** Properties of [get_bulk_actions] *)

(** C1, as the code has it.  When every document's fields hold the
    comparison path and the value found there is hashable,
    [get_bulk_actions] returns, in scan order, one delete action (operation
    delete, the target index, the document's identifier) for each document
    whose key an earlier document has, and nothing else; for each key value
    the first document with it is not deleted and every other one is; the
    number of actions is the number of documents minus the number of distinct
    key values.  Key values are compared as a Python set compares them. *)
Theorem get_bulk_actions_keeps_first {S : Type}
    (comparison_field index : string) (documents : list Document)
    (w : World S) :
  Forall (λ doc, is_Some (doc_key comparison_field doc)) documents →
  get_bulk_actions comparison_field index documents w
  = (Return ((λ doc, [("_op_type", "delete"); ("_index", index);
                      ("_id", _id doc)])
             <$> later_occurrences comparison_field documents), w)
  ∧ (∀ k, k ∈ keys_of comparison_field documents →
       ∃ i doc,
         documents !! i = Some doc ∧ doc_key comparison_field doc = Some k
         ∧ is_later_occurrence comparison_field documents i doc = false
         ∧ ∀ j doc', documents !! j = Some doc' →
                     doc_key comparison_field doc' = Some k → j ≠ i →
                     (i < j)%nat
                     ∧ is_later_occurrence comparison_field documents j doc'
                       = true)
  ∧ length (later_occurrences comparison_field documents)
    = (length documents
       - size (list_to_set (keys_of comparison_field documents) : gset HKey))%nat.
Proof.
  intros Hkeyed. split_and!.
  - rewrite get_bulk_actions_spec by by apply keyed_hashable_or_failing.
    destruct (keyed_failures_nil comparison_field _ Hkeyed) as [-> ->].
    destruct w. cbn. by rewrite app_nil_r.
  - apply first_document_of_key.
  - pose proof (later_occurrences_count comparison_field documents) as Hcount.
    rewrite keys_of_length in Hcount by done. lia.
Qed.

Lemma get_bulk_actions_keeps_first_witness :
  get_bulk_actions "key" "idx" docABAA w0
  = (Return [delete_action "idx" "3"; delete_action "idx" "4"], w0)
  ∧ length (later_occurrences "key" docABAA) = 2%nat.
Proof.
  assert (Forall (λ doc, is_Some (doc_key "key" doc)) docABAA) as Hkeyed.
  { repeat constructor; by eexists. }
  destruct (get_bulk_actions_keeps_first "key" "idx" docABAA w0 Hkeyed)
    as (Hrun & _ & Hlen).
  split; [exact Hrun|exact Hlen].
Defined.

(** The comparison path of [doc_nested] is there and leads to a mapping:
    the membership test raises [TypeError], and no action list is
    returned. *)
Lemma get_bulk_actions_unhashable_key :
  Forall (λ doc, ∃ v, get_value_from_dict "job" (_source doc) = Return v)
    [doc_nested]
  ∧ get_bulk_actions "job" "idx" [doc_nested] w0
    = (Raise (TypeError "unhashable type: 'dict'"), w0)
  ∧ ¬ ∃ actions w', get_bulk_actions "job" "idx" [doc_nested] w0
                     = (Return actions, w').
Proof.
  split_and!.
  - repeat constructor. by eexists.
  - reflexivity.
  - intros (actions & w' & H). discriminate H.
Qed.

(** *** Extraction failures *)

Section Isolation.

Context {S : Type}.
Variables (comparison_field index : string).

(** The decisions of the loop depend on the seen keys and the actions it
    starts from, and on nothing else. *)
Lemma for_doc_in_classification docs st st' (w w' : World S) :
  seen_values st = seen_values st' →
  bulk_actions st = bulk_actions st' →
  classification (for_doc_in comparison_field index docs st w).1
  = classification (for_doc_in comparison_field index docs st' w').1.
Proof.
  revert st st' w w'.
  induction docs as [|doc docs IH]; intros st st' w w' Hseen Hacts.
  { cbn. by rewrite Hseen, Hacts. }
  cbn. unfold mbind, M_bind, bind.
  destruct (doc_kind comparison_field doc)
    as [(e & He & _ & _)|[(e & _ & He & _)|(k & _ & _ & Hk)]].
  - rewrite !(loop_body_failure _ _ _ e) by done. by apply IH.
  - by rewrite !(loop_body_unhashable _ _ _ e) by done.
  - rewrite !(loop_body_keyed _ _ _ k) by done. rewrite Hseen, Hacts.
    apply IH; by case_bool_decide.
Qed.

Lemma for_doc_in_without_failure docs1 doc docs2 e (w : World S) :
  doc_failure comparison_field doc = Some e →
  classification
    (for_doc_in comparison_field index (docs1 ++ doc :: docs2)
       init_locals w).1
  = classification
      (for_doc_in comparison_field index (docs1 ++ docs2) init_locals w).1.
Proof.
  intros He. rewrite !for_doc_in_app.
  destruct (for_doc_in _ _ docs1 init_locals w) as [[st|e'] w']; [|done].
  cbn. unfold mbind, M_bind, bind.
  rewrite (loop_body_failure _ _ _ e) by done.
  by apply for_doc_in_classification.
Qed.

End Isolation.

(** C2. A document whose key extraction fails leaves the seen keys and the
    delete actions as they are and is only recorded (one exception appended,
    one record logged); and the scan of a sequence with such a document
    decides the same seen keys and the same delete actions as the scan of
    the sequence without it. *)
Theorem extraction_failure_is_isolated {S : Type}
    (comparison_field index : string) (doc : Document) (e : Exn) :
  get_value_from_dict comparison_field (_source doc) = Raise e →
  (∀ st (w : World S),
     loop_body comparison_field index doc st w
     = (Return (mkLocals (seen_values st) (bulk_actions st)
                  (exceptions st ++ [e])),
        mkWorld (cluster w)
          (trace w ++ [LoggerException
                         (MsgFailedComparisonField (_id doc) comparison_field)
                         e])))
  ∧ (∀ docs1 docs2 (w : World S),
       classification
         (for_doc_in comparison_field index (docs1 ++ doc :: docs2)
            init_locals w).1
       = classification
           (for_doc_in comparison_field index (docs1 ++ docs2)
              init_locals w).1).
Proof.
  intros Hfail.
  assert (doc_failure comparison_field doc = Some e) as He.
  { unfold doc_failure. by rewrite Hfail. }
  split.
  - intros st w. by apply loop_body_failure.
  - intros docs1 docs2 w. by apply (for_doc_in_without_failure _ _ _ _ _ e).
Qed.

Lemma extraction_failure_is_isolated_witness :
  classification
    (for_doc_in "key" "idx"
       (take 2 docABAA ++ doc_missing :: drop 2 docABAA) init_locals w0).1
  = classification (for_doc_in "key" "idx" docABAA init_locals w0).1.
Proof.
  assert (get_value_from_dict "key" (_source doc_missing)
          = Raise (ValueError "Key key not found in the dictionary")) as Hfail.
  { reflexivity. }
  destruct (extraction_failure_is_isolated (S:=unit) "key" "idx" doc_missing _
              Hfail) as [_ Hrun].
  exact (Hrun (take 2 docABAA) (drop 2 docABAA) w0).
Defined.

(** *** The aggregated extraction error *)

Lemma doc_failure_iff (comparison_field : string) (doc : Document) (e : Exn) :
  doc_failure comparison_field doc = Some e
  ↔ get_value_from_dict comparison_field (_source doc) = Raise e.
Proof.
  unfold doc_failure.
  destruct (get_value_from_dict _ _); split; intros; by simplify_eq.
Qed.

Lemma failures_of_cons_iff (comparison_field : string) (docs : list Document) :
  failures_of comparison_field docs ≠ []
  ↔ ∃ doc, doc ∈ docs
           ∧ ∃ e, get_value_from_dict comparison_field (_source doc) = Raise e.
Proof.
  split.
  - destruct (failures_of _ docs) as [|e excs] eqn:Hf; [done|]. intros _.
    assert (e ∈ failures_of comparison_field docs) as Hin.
    { rewrite Hf. by left. }
    apply list_elem_of_omap in Hin as (doc & Hdoc & He).
    exists doc. split; [done|]. exists e. by apply doc_failure_iff.
  - intros (doc & Hdoc & e & He%doc_failure_iff) Hnil.
    assert (e ∈ failures_of comparison_field docs) as Hin.
    { apply list_elem_of_omap. eauto. }
    rewrite Hnil in Hin. by apply elem_of_nil in Hin.
Qed.

(** C3, as the code has it.  When no extracted value is unhashable,
    [get_bulk_actions] raises the aggregated error exactly when the key
    extraction of at least one document failed; the error then carries the
    extraction errors of all the documents of the sequence, in scan order
    (those of the documents after a failing one too), and by then one record
    has been logged for each of them: the sequence has been read to its
    end. *)
Theorem get_bulk_actions_aggregates {S : Type}
    (comparison_field index : string) (documents : list Document)
    (w : World S) :
  Forall (hashable_or_failing comparison_field) documents →
  ((∃ doc, doc ∈ documents
           ∧ ∃ e, get_value_from_dict comparison_field (_source doc) = Raise e)
   ↔ ∃ msg excs w',
       get_bulk_actions comparison_field index documents w
       = (Raise (ExceptionGroup msg excs), w'))
  ∧ (∀ msg excs w',
       get_bulk_actions comparison_field index documents w
       = (Raise (ExceptionGroup msg excs), w') →
       excs = failures_of comparison_field documents
       ∧ w' = mkWorld (cluster w)
                (trace w ++ failure_logs comparison_field documents))
  ∧ (∀ docs1 doc docs2 e,
       documents = docs1 ++ doc :: docs2 →
       get_value_from_dict comparison_field (_source doc) = Raise e →
       failures_of comparison_field documents
       = failures_of comparison_field docs1
         ++ e :: failures_of comparison_field docs2).
Proof.
  intros Hall. rewrite <- failures_of_cons_iff.
  rewrite (get_bulk_actions_spec _ _ _ _ Hall).
  split_and!.
  - destruct (failures_of _ documents) as [|e excs]; split.
    + done.
    + intros (msg & excs & w' & [=]).
    + eauto.
    + done.
  - intros msg excs w' Hrun.
    destruct (failures_of _ documents) as [|e excs']; by simplify_eq.
  - intros docs1 doc docs2 e -> He%doc_failure_iff.
    unfold failures_of. rewrite omap_app. cbn. by rewrite He.
Qed.

Lemma get_bulk_actions_aggregates_witness :
  ∃ msg excs w',
    get_bulk_actions "key" "idx" docs_missing_B w0
    = (Raise (ExceptionGroup msg excs), w')
    ∧ excs = [ValueError "Key key not found in the dictionary";
              ValueError "Key key not found in the dictionary"].
Proof.
  assert (Forall (hashable_or_failing "key") docs_missing_B) as Hall.
  { repeat constructor. }
  destruct (get_bulk_actions_aggregates (S:=unit) "key" "idx" docs_missing_B w0
              Hall) as (Hiff & Hcarry & _).
  destruct (proj1 Hiff) as (msg & excs & w' & Hrun).
  { exists doc_missing. split; [by right; left|]. by eexists. }
  exists msg, excs, w'. split; [exact Hrun|].
  by destruct (Hcarry msg excs w' Hrun) as [-> _].
Defined.

(** A failing document followed by one whose value is a mapping: the scan
    ends at the second with [TypeError]; no aggregated error is raised. *)
Lemma get_bulk_actions_type_error_not_aggregated :
  let documents := [doc_missing; doc_nested] in
  (∃ doc, doc ∈ documents
          ∧ ∃ e, get_value_from_dict "job" (_source doc) = Raise e)
  ∧ get_bulk_actions "job" "idx" documents w0
    = (Raise (TypeError "unhashable type: 'dict'"),
       mkWorld tt [LoggerException (MsgFailedComparisonField "9" "job")
                     (ValueError "Key job not found in the dictionary")])
  ∧ ¬ ∃ msg excs w',
        get_bulk_actions "job" "idx" documents w0
        = (Raise (ExceptionGroup msg excs), w').
Proof.
  split_and!.
  - exists doc_missing. split; [by left|]. by eexists.
  - reflexivity.
  - intros (msg & excs & w' & H). discriminate H.
Qed.

(** *** A scan without duplicates *)




(** *** Running the scan again *)

Section Select.

Variable P : nat → Document → bool.

Lemma select_snoc docs doc :
  select P (docs ++ [doc])
  = select P docs ++ (if P (length docs) doc then [doc] else []).
Proof.
  unfold select. rewrite imap_app, filter_app, fmap_app. f_equal.
  rewrite imap_cons, imap_nil, filter_cons, filter_nil. cbn.
  rewrite Nat.add_0_r. destruct (P (length docs) doc); by case_decide.
Qed.

Lemma elem_of_select docs doc :
  doc ∈ select P docs ↔ ∃ i, docs !! i = Some doc ∧ P i doc = true.
Proof.
  unfold select. rewrite list_elem_of_fmap. split.
  - intros ([i d] & -> & [Hp Hin]%list_elem_of_filter).
    apply elem_of_lookup_imap in Hin as (j & d' & [= -> ->] & Hj). eauto.
  - intros (i & Hi & Hp). exists (i, doc). split; [done|].
    apply list_elem_of_filter. split; [done|].
    by apply (elem_of_lookup_imap_2 pair).
Qed.


End Select.

Lemma select_filter (Q : Document → Prop) `{!∀ doc, Decision (Q doc)} docs :
  select (λ _ doc, bool_decide (Q doc)) docs = filter Q docs.
Proof.
  induction docs as [|doc docs IH] using rev_ind; [done|].
  rewrite select_snoc, filter_app, IH. f_equal.
  rewrite filter_cons, filter_nil. by case_bool_decide; case_decide.
Qed.

Section Idempotence.

Context {S : Type}.
Variables (comparison_field index : string).

Local Abbreviation key := (doc_key comparison_field).
Local Abbreviation keys := (keys_of comparison_field).
Local Abbreviation later := (later_occurrences comparison_field).
Local Abbreviation is_later := (is_later_occurrence comparison_field).


Lemma later_occurrences_nil docs : NoDup (keys docs) → later docs = [].
Proof.
  intros Hnodup. apply length_zero_iff_nil.
  pose proof (later_occurrences_count comparison_field docs) as Hcount.
  rewrite size_list_to_set in Hcount by done. lia.
Qed.

(** Where the first unhashable value is, if there is one. *)
Lemma first_unhashable docs :
  Forall (hashable_or_failing comparison_field) docs
  ∨ ∃ docs1 doc docs2 e,
      docs = docs1 ++ doc :: docs2
      ∧ Forall (hashable_or_failing comparison_field) docs1
      ∧ doc_unhashable comparison_field doc = Some e.
Proof.
  induction docs as [|doc docs IH]; [by left|].
  destruct (doc_unhashable comparison_field doc) as [e|] eqn:He.
  { right. exists [], doc, docs, e. by split_and!. }
  destruct IH as [IH|(docs1 & d & docs2 & e & -> & Hall & Hd)].
  - left. by constructor.
  - right. exists (doc :: docs1), d, docs2, e. split_and!; [done| |done].
    by constructor.
Qed.

(** When [get_bulk_actions] returns, every document had a key, nothing
    was logged, and the actions are those of the later occurrences. *)
Lemma get_bulk_actions_returns docs actions (w w' : World S) :
  get_bulk_actions comparison_field index docs w = (Return actions, w') →
  Forall (λ doc, is_Some (key doc)) docs
  ∧ actions = (delete_action index ∘ _id <$> later docs)
  ∧ w' = w.
Proof.
  intros Hrun.
  destruct (first_unhashable docs)
    as [Hall|(docs1 & doc & docs2 & e & -> & Hall & He)].
  2: { by rewrite (get_bulk_actions_unhashable _ _ _ _ _ e) in Hrun. }
  rewrite get_bulk_actions_spec in Hrun by done.
  destruct (failures_of comparison_field docs) as [|e excs] eqn:Hf;
    [|done].
  assert (Forall (λ doc, is_Some (key doc)) docs) as Hkeyed.
  { apply Forall_forall. intros doc Hdoc.
    rewrite Forall_forall in Hall. specialize (Hall doc Hdoc).
    destruct (doc_kind comparison_field doc)
      as [(e & He & _ & _)|[(e & _ & He & _)|(k & _ & _ & Hk)]].
    - assert (e ∈ failures_of comparison_field docs) as Hin.
      { apply list_elem_of_omap. eauto. }
      rewrite Hf in Hin. by apply elem_of_nil in Hin.
    - unfold hashable_or_failing in Hall. congruence.
    - by eexists. }
  destruct (keyed_failures_nil comparison_field _ Hkeyed) as [_ Hlogs].
  rewrite Hlogs, app_nil_r in Hrun. destruct w. by simplify_eq.
Qed.

Lemma get_bulk_actions_NoDup docs (w : World S) :
  Forall (λ doc, is_Some (key doc)) docs →
  NoDup (keys docs) →
  get_bulk_actions comparison_field index docs w = (Return [], w).
Proof.
  intros Hkeyed Hnodup.
  rewrite get_bulk_actions_spec by by apply keyed_hashable_or_failing.
  destruct (keyed_failures_nil comparison_field _ Hkeyed) as [-> ->].
  rewrite later_occurrences_nil by done.
  destruct w. cbn. by rewrite app_nil_r.
Qed.

End Idempotence.

Lemma deleted_ids_delete_actions (index : string) (docs : list Document) :
  deleted_ids (delete_action index ∘ _id <$> docs) = _id <$> docs.
Proof.
  induction docs as [|doc docs IH]; [done|].
  unfold deleted_ids in *. cbn. by rewrite IH.
Qed.





(** *** Which exceptions the scan loop catches *)

Lemma walk_keys_not_dict (key : string) (keys : list string) (data : value) :
  is_dict data = false →
  walk_keys (key :: keys) data
  = Raise (AttributeError
             ("'" ++ type_name data ++ "' object has no attribute 'keys'")).
Proof. by destruct data. Qed.

Lemma py_hash_raises (v : value) (e : Exn) :
  py_hash v = Raise e →
  e = TypeError ("unhashable type: '" ++ type_name v ++ "'")
  ∧ ((∃ l, v = VList l) ∨ (∃ items, v = VDict items)).
Proof. destruct v; intros [= <-]; eauto. Qed.

Lemma doc_unhashable_iff (comparison_field : string) (doc : Document) (e : Exn) :
  doc_unhashable comparison_field doc = Some e
  ↔ ∃ v, get_value_from_dict comparison_field (_source doc) = Return v
         ∧ py_hash v = Raise e.
Proof.
  unfold doc_unhashable. destruct (get_value_from_dict _ _) as [v|e'].
  - destruct (py_hash v) eqn:Hv; split.
    + done.
    + intros (v' & [= <-] & Hv'). congruence.
    + intros [= ->]. eauto.
    + intros (v' & [= <-] & Hv'). congruence.
  - split; [done|]. by intros (v' & [=] & _).
Qed.




(** ** Properties of [remove_documents] *)




(** ** Properties of [main] *)

Section MainFacts.

Context {S : Type}.
Variable opensearch_client : OpenSearch S.

Lemma failure_logs_quiet comparison_field docs :
  Forall (λ ev, is_index_access ev = false)
    (failure_logs comparison_field docs)
  ∧ dumped_actions (failure_logs comparison_field docs) = []
  ∧ submitted_batches (failure_logs comparison_field docs) = [].
Proof.
  induction docs as [|doc docs (IH1 & IH2 & IH3)]; [by split_and!|].
  unfold failure_logs, failure_log in *. cbn.
  destruct (doc_failure comparison_field doc); cbn; [|by split_and!].
  split_and!; [by constructor|done..].
Qed.

(** A run of [get_bulk_actions] only logs extraction errors, and what it
    returns does not depend on the world it runs in. *)
Lemma get_bulk_actions_run comparison_field index docs (w : World S) :
  ∃ out docs',
    get_bulk_actions comparison_field index docs w
    = (out, mkWorld (cluster w)
              (trace w ++ failure_logs comparison_field docs'))
    ∧ ∀ actions,
        out = Return actions →
        actions = (delete_action index ∘ _id
                   <$> later_occurrences comparison_field docs).
Proof.
  destruct (first_unhashable comparison_field docs)
    as [Hall|(docs1 & doc & docs2 & e & -> & Hall & He)].
  - rewrite get_bulk_actions_spec by done. eexists _, docs.
    split; [done|]. intros actions Hout.
    destruct (failures_of comparison_field docs); by simplify_eq.
  - rewrite (get_bulk_actions_unhashable _ _ _ _ _ e) by done.
    eexists _, docs1. by split.
Qed.

Lemma get_bulk_actions_outcome comparison_field index docs (w w' : World S) :
  (get_bulk_actions comparison_field index docs w).1
  = (get_bulk_actions comparison_field index docs w').1.
Proof.
  destruct (first_unhashable comparison_field docs)
    as [Hall|(docs1 & doc & docs2 & e & -> & Hall & He)].
  - by rewrite !get_bulk_actions_spec by done.
  - by rewrite !(get_bulk_actions_unhashable _ _ _ _ _ e) by done.
Qed.

Lemma log_actions_run actions (w : World S) :
  log_actions actions w
  = (Return tt,
     mkWorld (cluster w)
       (trace w ++ (LoggerInfo ∘ MsgJsonDumps <$> actions))).
Proof.
  revert w. induction actions as [|action actions IH]; intros w.
  - destruct w. cbn. by rewrite app_nil_r.
  - cbn. unfold mbind, M_bind, bind, emit. rewrite IH. cbn.
    by rewrite <- app_assoc.
Qed.

Lemma dumped_actions_dumps actions :
  dumped_actions (LoggerInfo ∘ MsgJsonDumps <$> actions) = actions
  ∧ Forall (λ ev, is_index_access ev = false)
      (LoggerInfo ∘ MsgJsonDumps <$> actions).
Proof.
  induction actions as [|action actions [IH1 IH2]]; [done|].
  unfold dumped_actions in *. cbn. rewrite IH1. split; [done|].
  by constructor.
Qed.

(** What [remove_documents] leaves in the trace: the batch, then records
    and calls other than a batch. *)
Lemma remove_documents_run actions index (w : World S) :
  ∃ out c evs,
    remove_documents opensearch_client actions index w
    = (out, mkWorld c (trace w ++ HelpersBulk actions :: evs))
    ∧ submitted_batches evs = [].
Proof.
  unfold remove_documents, mbind, M_bind, bind, call_bulk, emit, try_except,
    call_refresh, raise.
  destruct (helpers_bulk opensearch_client actions (cluster w))
    as [[bulk_errors|e] c1]; cbn.
  - destruct (indices_refresh opensearch_client index c1) as [[[]|e] c2];
      [destruct bulk_errors|]; cbn;
      rewrite <- !app_assoc; cbn; eexists _, _, _; (split; reflexivity).
  - eexists _, _, []. split; reflexivity.
Qed.

(** [main] with all required settings present, step by step. *)
Lemma main_complete config es_index es_url es_user es_password
    comparison_field (w : World S) :
  ES_INDEX config = Some es_index →
  ES_URL config = Some es_url →
  ES_USER config = Some es_user →
  ES_PASSWORD config = Some es_password →
  DOCUMENT_COMPARISON_FIELD config = Some comparison_field →
  main opensearch_client config w
  = let w1 := mkWorld (cluster w)
                (trace w ++ [NewOpenSearch es_url es_user es_password;
                             HelpersScan es_index]) in
    match helpers_scan opensearch_client es_index (cluster w) with
    | Raise e => (Raise (FailedToFetchDocumentsFromIndex e), w1)
    | Return documents =>
        let w2 := mkWorld (cluster w)
                    (trace w1 ++ [LoggerInfo (MsgFoundDocuments 1 es_index)])
        in
        match get_bulk_actions comparison_field es_index documents w2 with
        | (Raise e, w3) => (Raise e, w3)
        | (Return actions, w3) =>
            let w4 := mkWorld (cluster w3)
                        (trace w3 ++ [LoggerInfo
                                        (MsgFoundDuplicated (length actions))])
            in
            match actions with
            | [] =>
                (Return tt,
                 mkWorld (cluster w4)
                   (trace w4 ++ [LoggerInfo (MsgNoDuplicates es_index)]))
            | _ :: _ =>
                match str_to_bool (DRY_RUN config) with
                | Raise e => (Raise e, w4)
                | Return true =>
                    log_actions actions
                      (mkWorld (cluster w4)
                         (trace w4 ++ [LoggerInfo MsgBulkActions]))
                | Return false =>
                    remove_documents opensearch_client actions es_index w4
                end
            end
        end
    end.
Proof.
  intros Hindex Hurl Huser Hpassword Hfield.
  unfold main. rewrite Hindex, Hurl, Huser, Hpassword, Hfield.
  unfold mbind, M_bind, bind, emit, try_except, fetch_all_documents,
    call_scan, raise, lift.
  cbn [cluster trace].
  destruct (helpers_scan opensearch_client es_index (cluster w))
    as [documents|e]; cbn [cluster trace]; rewrite <- !app_assoc;
    cbn [app]; [|done].
  destruct (get_bulk_actions _ _ _ _) as [[actions|e] w3]; [|done].
  destruct actions as [|action actions]; [done|]. cbn.
  by destruct (str_to_bool (DRY_RUN config)) as [[]|e].
Qed.

Lemma main_incomplete config (w : World S) :
  ES_INDEX config = None ∨ ES_URL config = None ∨ ES_USER config = None
  ∨ ES_PASSWORD config = None ∨ DOCUMENT_COMPARISON_FIELD config = None →
  main opensearch_client config w
  = (Raise FailedToGetAllEnvironmentVariables, w).
Proof.
  unfold main. intros Hnone.
  destruct (ES_INDEX config), (ES_URL config), (ES_USER config),
    (ES_PASSWORD config), (DOCUMENT_COMPARISON_FIELD config);
    try done.
  by destruct_or!.
Qed.

Lemma config_complete_or_not config :
  (∃ es_index es_url es_user es_password comparison_field,
     ES_INDEX config = Some es_index ∧ ES_URL config = Some es_url
     ∧ ES_USER config = Some es_user
     ∧ ES_PASSWORD config = Some es_password
     ∧ DOCUMENT_COMPARISON_FIELD config = Some comparison_field)
  ∨ (ES_INDEX config = None ∨ ES_URL config = None ∨ ES_USER config = None
     ∨ ES_PASSWORD config = None ∨ DOCUMENT_COMPARISON_FIELD config = None).
Proof.
  destruct (ES_INDEX config), (ES_URL config), (ES_USER config),
    (ES_PASSWORD config), (DOCUMENT_COMPARISON_FIELD config);
    eauto 15.
Qed.

End MainFacts.

Lemma Forall_not_mutation (evs : list Event) :
  Forall (λ ev, is_index_access ev = false) evs →
  Forall (λ ev, is_mutation ev = false) evs.
Proof. intros H. eapply Forall_impl; [exact H|]. by intros []. Qed.

(** Two readings of the same setting, or of the same scan, agree. *)
Ltac same_run :=
  repeat match goal with
    | H1 : ?x = Some ?a, H2 : ?x = Some ?b |- _ =>
        assert (b = a) by congruence; subst b; clear H2
    | H1 : ?x = Return ?a, H2 : ?x = Return ?b |- _ =>
        assert (b = a) by congruence; subst b; clear H2
    end.

Ltac quiet_events :=
  repeat first
    [ done
    | apply Forall_nil
    | apply Forall_cons; split; [done|]
    | apply Forall_app; split
    | apply Forall_not_mutation ].

(** C6. Take two runs of [main] from the same world, with the same
    settings but for the dry-run flag: one where it reads as true, one where
    it reads as false.  The dry run issues no batch delete and no refresh,
    and leaves the cluster as it was.  The batch that the other run submits
    is the list of actions that the dry run has logged (and it submits
    nothing when that list is empty); that list is the one
    [get_bulk_actions] returns on the scanned documents. *)
Theorem main_dry_run {S : Type} (opensearch_client : OpenSearch S)
    (config : Config) (dry real : string) (w w_d w_r : World S)
    (out_d out_r : outcome unit) :
  str_to_bool dry = Return true →
  str_to_bool real = Return false →
  main opensearch_client (with_dry_run config dry) w = (out_d, w_d) →
  main opensearch_client (with_dry_run config real) w = (out_r, w_r) →
  ∃ evs_d evs_r,
    trace w_d = trace w ++ evs_d
    ∧ trace w_r = trace w ++ evs_r
    ∧ Forall (λ ev, is_mutation ev = false) evs_d
    ∧ cluster w_d = cluster w
    ∧ submitted_batches evs_r
      = match dumped_actions evs_d with
        | [] => []
        | _ :: _ => [dumped_actions evs_d]
        end
    ∧ ∀ es_index comparison_field documents actions (w1 w2 : World S),
        out_d = Return tt →
        ES_INDEX config = Some es_index →
        DOCUMENT_COMPARISON_FIELD config = Some comparison_field →
        helpers_scan opensearch_client es_index (cluster w)
        = Return documents →
        get_bulk_actions comparison_field es_index documents w1
        = (Return actions, w2) →
        dumped_actions evs_d = actions.
Proof.
  intros Hdry Hreal Hrun_d Hrun_r.
  destruct (config_complete_or_not config)
    as [(es_index & es_url & es_user & es_password & comparison_field
         & Hindex & Hurl & Huser & Hpassword & Hfield)|Hnone].
  2: { rewrite main_incomplete in Hrun_d, Hrun_r by done. simplify_eq.
       exists [], []. rewrite app_nil_r. by split_and!. }
  rewrite (main_complete _ (with_dry_run config dry) es_index es_url es_user
             es_password comparison_field) in Hrun_d by done.
  rewrite (main_complete _ (with_dry_run config real) es_index es_url es_user
             es_password comparison_field) in Hrun_r by done.
  cbn [DRY_RUN with_dry_run] in Hrun_d, Hrun_r.
  rewrite Hdry in Hrun_d. rewrite Hreal in Hrun_r.
  cbn zeta in Hrun_d, Hrun_r.
  destruct (helpers_scan opensearch_client es_index (cluster w))
    as [documents|e] eqn:Hscan.
  2: { simplify_eq. eexists _, _. cbn. split_and!; try done. quiet_events. }
  destruct (get_bulk_actions_run comparison_field es_index documents
              (mkWorld (cluster w)
                 (trace w ++ [NewOpenSearch es_url es_user es_password;
                              HelpersScan es_index;
                              LoggerInfo (MsgFoundDocuments 1 es_index)])))
    as (out & docs' & Hgba & Hout).
  cbn [cluster trace app] in Hrun_d, Hrun_r, Hgba.
  rewrite <- !app_assoc in Hrun_d, Hrun_r. cbn [app] in Hrun_d, Hrun_r.
  rewrite Hgba in Hrun_d, Hrun_r.
  destruct (failure_logs_quiet comparison_field docs')
    as (Hquiet & Hdumped & Hsubmitted).
  destruct out as [actions|e].
  2: { simplify_eq. eexists _, _. cbn. rewrite <- !app_assoc. cbn.
       split_and!; try done.
       - quiet_events.
       - unfold submitted_batches, dumped_actions in *. cbn.
         by rewrite Hdumped, Hsubmitted. }
  specialize (Hout actions eq_refl).
  destruct actions as [|action actions].
  { simplify_eq. eexists _, _. cbn. rewrite <- !app_assoc. cbn.
    split_and!; try done.
    - quiet_events.
    - unfold submitted_batches, dumped_actions in *. cbn.
      rewrite !omap_app. cbn. by rewrite Hdumped, Hsubmitted.
    - intros idx field docs acts w1 w2 _ Hidx Hfld Hscan' Hacts.
      same_run.
      apply get_bulk_actions_returns in Hacts as (_ & Hacts & _).
      rewrite <- Hout in Hacts. subst acts.
      unfold dumped_actions in *. cbn. rewrite !omap_app. cbn.
      by rewrite Hdumped. }
  rewrite log_actions_run in Hrun_d.
  match type of Hrun_r with
  | context [remove_documents _ _ _ ?w4] =>
      destruct (remove_documents_run opensearch_client (action :: actions)
                  es_index w4) as (out & c & evs & Hremove & Hevs)
  end.
  cbn [cluster trace] in Hrun_d, Hrun_r, Hremove.
  rewrite Hremove in Hrun_r. simplify_eq.
  destruct (dumped_actions_dumps (action :: actions)) as [Hdumps Hquiet'].
  eexists _, _. cbn [trace cluster]. rewrite <- ?app_assoc. cbn [app].
  assert (dumped_actions
            (NewOpenSearch es_url es_user es_password
             :: HelpersScan es_index
             :: LoggerInfo (MsgFoundDocuments 1 es_index)
             :: failure_logs comparison_field docs'
             ++ LoggerInfo (MsgFoundDuplicated (length (action :: actions)))
             :: LoggerInfo MsgBulkActions
             :: (LoggerInfo ∘ MsgJsonDumps <$> action :: actions))
          = action :: actions) as Hlogged.
  { unfold dumped_actions in *. cbn. rewrite omap_app. cbn.
    cbn in Hdumps. by rewrite Hdumped, Hdumps. }
  rewrite Hlogged.
  split_and!; try done.
  - quiet_events. exact (proj2 (dumped_actions_dumps actions)).
  - unfold submitted_batches in *. cbn. rewrite omap_app. cbn.
    by rewrite Hsubmitted, Hevs.
  - intros idx field docs acts w1 w2 _ Hidx Hfld Hscan' Hacts.
    same_run.
    apply get_bulk_actions_returns in Hacts as (_ & Hacts & _).
    by rewrite Hout, Hacts.
Qed.

Lemma main_dry_run_witness :
  cluster (main healthy_client (example_config "true") world_ABAA).2 = docABAA
  ∧ Forall (λ ev, is_mutation ev = false)
      (trace (main healthy_client (example_config "true") world_ABAA).2)
  ∧ submitted_batches
      (trace (main healthy_client (example_config "false") world_ABAA).2)
    = [[delete_action "jobs" "3"; delete_action "jobs" "4"]].
Proof.
  destruct (main_dry_run healthy_client (example_config "") "true" "false"
              world_ABAA
              (main healthy_client (example_config "true") world_ABAA).2
              (main healthy_client (example_config "false") world_ABAA).2
              (main healthy_client (example_config "true") world_ABAA).1
              (main healthy_client (example_config "false") world_ABAA).1
              eq_refl eq_refl eq_refl eq_refl)
    as (evs_d & evs_r & Hd & Hr & Hquiet & Hcluster & Hbatches & _).
  cbn [trace world_ABAA app] in Hd, Hr. subst evs_d evs_r.
  split_and!; [exact Hcluster|exact Hquiet|].
  rewrite Hbatches. vm_compute. reflexivity.
Defined.

(** C7, as the code has it.  The five required settings are checked before
    anything else: when one of them is unset, [main] raises the
    configuration error and has called nothing.  The dry-run flag is not
    read before the scan: with the required settings present and a flag
    that [str_to_bool] rejects, [main] first builds the client and scans the
    index, calls the index no more after that and leaves the cluster as it
    was; the flag's error is raised when [get_bulk_actions] has returned at
    least one action, and goes unreported when it has returned none. *)
Theorem main_validates_settings {S : Type} (opensearch_client : OpenSearch S)
    (config : Config) (w : World S) :
  (ES_INDEX config = None ∨ ES_URL config = None ∨ ES_USER config = None
   ∨ ES_PASSWORD config = None ∨ DOCUMENT_COMPARISON_FIELD config = None →
   main opensearch_client config w
   = (Raise FailedToGetAllEnvironmentVariables, w))
  ∧ (∀ es_index es_url es_user es_password comparison_field e out w',
       ES_INDEX config = Some es_index →
       ES_URL config = Some es_url →
       ES_USER config = Some es_user →
       ES_PASSWORD config = Some es_password →
       DOCUMENT_COMPARISON_FIELD config = Some comparison_field →
       str_to_bool (DRY_RUN config) = Raise e →
       main opensearch_client config w = (out, w') →
       (∃ evs,
          trace w' = trace w ++ NewOpenSearch es_url es_user es_password
                                :: HelpersScan es_index :: evs
          ∧ Forall (λ ev, is_index_access ev = false) evs)
       ∧ cluster w' = cluster w
       ∧ ∀ documents actions (w1 w2 : World S),
           helpers_scan opensearch_client es_index (cluster w)
           = Return documents →
           get_bulk_actions comparison_field es_index documents w1
           = (Return actions, w2) →
           (actions = [] → out = Return tt)
           ∧ (actions ≠ [] → out = Raise e)).
Proof.
  split; [apply main_incomplete|].
  intros es_index es_url es_user es_password comparison_field e out w'
    Hindex Hurl Huser Hpassword Hfield Hflag Hrun.
  rewrite (main_complete _ config es_index es_url es_user es_password
             comparison_field) in Hrun by done.
  rewrite Hflag in Hrun. cbn zeta in Hrun.
  destruct (helpers_scan opensearch_client es_index (cluster w))
    as [documents|e'] eqn:Hscan.
  2: { simplify_eq. cbn. split_and!; [|done|intros; discriminate].
       exists []. split; [done|constructor]. }
  match type of Hrun with
  | context [get_bulk_actions _ _ _ ?w2] =>
      destruct (get_bulk_actions_run comparison_field es_index documents w2)
        as (out' & docs' & Hgba & Hout)
  end.
  rewrite Hgba in Hrun. cbn [cluster trace] in Hrun, Hgba.
  destruct (failure_logs_quiet comparison_field docs') as (Hquiet & _ & _).
  assert (∀ docs acts (w1 w2 : World S),
            helpers_scan opensearch_client es_index (cluster w) = Return docs →
            get_bulk_actions comparison_field es_index docs w1
            = (Return acts, w2) →
            out' = Return acts) as Hsame.
  { intros docs acts w1 w2 Hscan' Hacts. same_run.
    match type of Hgba with
    | get_bulk_actions _ _ _ ?w2' = _ =>
        pose proof (get_bulk_actions_outcome comparison_field es_index
                      documents w1 w2') as Hw
    end.
    by rewrite Hacts, Hgba in Hw. }
  destruct out' as [actions|e'].
  2: { simplify_eq. cbn [cluster trace]. split_and!; [|done|].
       - eexists. rewrite <- !app_assoc. cbn. split; [done|]. quiet_events.
       - intros docs acts w1 w2 [= <-] Hacts.
         by specialize (Hsame documents acts w1 w2 Hscan Hacts). }
  destruct actions as [|action actions]; simplify_eq; cbn [cluster trace].
  - split_and!; [|done|].
    + eexists. rewrite <- !app_assoc. cbn. split; [done|]. quiet_events.
    + intros docs acts w1 w2 [= <-] Hacts.
      specialize (Hsame documents acts w1 w2 Hscan Hacts). by simplify_eq.
  - split_and!; [|done|].
    + eexists. rewrite <- !app_assoc. cbn. split; [done|]. quiet_events.
    + intros docs acts w1 w2 [= <-] Hacts.
      specialize (Hsame documents acts w1 w2 Hscan Hacts). by simplify_eq.
Qed.

Lemma main_validates_settings_witness :
  main healthy_client config_without_url world_ABAA
  = (Raise FailedToGetAllEnvironmentVariables, world_ABAA)
  ∧ (main healthy_client (example_config "maybe") world_ABAA).1
    = Raise (ValueError "Cannot convert maybe to a bool").
Proof.
  split.
  - apply (proj1 (main_validates_settings healthy_client config_without_url
                    world_ABAA)).
    right; left; reflexivity.
  - destruct (proj2 (main_validates_settings healthy_client
                       (example_config "maybe") world_ABAA)
                "jobs" "https://opensearch:9200" "admin" "secret" "key"
                (ValueError "Cannot convert maybe to a bool")
                (main healthy_client (example_config "maybe") world_ABAA).1
                (main healthy_client (example_config "maybe") world_ABAA).2
                eq_refl eq_refl eq_refl eq_refl eq_refl eq_refl eq_refl)
      as (_ & _ & Hout).
    destruct (Hout docABAA
                [delete_action "jobs" "3"; delete_action "jobs" "4"]
                world_ABAA world_ABAA eq_refl eq_refl) as [_ Hraise].
    apply Hraise. discriminate.
Defined.

(** A dry-run flag that is no boolean.  With duplicates in the index the
    error comes after the client was built and the index scanned; without
    duplicates the run ends well and the flag is never looked at. *)
Lemma main_reads_dry_run_after_scan :
  str_to_bool (DRY_RUN (example_config "maybe"))
  = Raise (ValueError "Cannot convert maybe to a bool")
  ∧ main healthy_client (example_config "maybe") world_ABAA
    = (Raise (ValueError "Cannot convert maybe to a bool"),
       mkWorld docABAA
         [NewOpenSearch "https://opensearch:9200" "admin" "secret";
          HelpersScan "jobs";
          LoggerInfo (MsgFoundDocuments 1 "jobs");
          LoggerInfo (MsgFoundDuplicated 2)])
  ∧ main healthy_client (example_config "maybe") (mkWorld (take 2 docABAA) [])
    = (Return tt,
       mkWorld (take 2 docABAA)
         [NewOpenSearch "https://opensearch:9200" "admin" "secret";
          HelpersScan "jobs";
          LoggerInfo (MsgFoundDocuments 1 "jobs");
          LoggerInfo (MsgFoundDuplicated 0);
          LoggerInfo (MsgNoDuplicates "jobs")]).
Proof. split_and!; vm_compute; reflexivity. Qed.

(** ** The flows of the test suite *)

Example full_flow :
  main healthy_client (example_config "false") world_ABAA
  = (Return tt,
     mkWorld (take 2 docABAA)
       [NewOpenSearch "https://opensearch:9200" "admin" "secret";
        HelpersScan "jobs";
        LoggerInfo (MsgFoundDocuments 1 "jobs");
        LoggerInfo (MsgFoundDuplicated 2);
        HelpersBulk [delete_action "jobs" "3"; delete_action "jobs" "4"];
        LoggerInfo (MsgRemoved 2 "jobs");
        IndicesRefresh "jobs"]).
Proof. vm_compute. reflexivity. Qed.

Example dry_run_flow :
  main healthy_client (example_config "true") world_ABAA
  = (Return tt,
     mkWorld docABAA
       [NewOpenSearch "https://opensearch:9200" "admin" "secret";
        HelpersScan "jobs";
        LoggerInfo (MsgFoundDocuments 1 "jobs");
        LoggerInfo (MsgFoundDuplicated 2);
        LoggerInfo MsgBulkActions;
        LoggerInfo (MsgJsonDumps (delete_action "jobs" "3"));
        LoggerInfo (MsgJsonDumps (delete_action "jobs" "4"))]).
Proof. vm_compute. reflexivity. Qed.

Example get_value_from_dict_nested :
  get_value_from_dict "job.refs.org"
    (VDict [("job", VDict [("build_id", VStr "17");
                           ("refs", VDict [("org", VStr "openshift")])])])
  = Return (VStr "openshift").
Proof. reflexivity. Qed.

Example get_value_from_dict_missing :
  get_value_from_dict "job.refs.nonexisting_field"
    (VDict [("job", VDict [("build_id", VStr "17");
                           ("refs", VDict [("org", VStr "openshift")])])])
  = Raise (ValueError "Key nonexisting_field not found in the dictionary").
Proof. reflexivity. Qed.

Example true_is_one :
  get_bulk_actions "key" "idx"
    [ mkDocument "a" (VDict [("key", VBool true)]);
      mkDocument "b" (VDict [("key", VInt 1)]);
      mkDocument "c" (VDict [("key", VFloat (2 # 2))]);
      mkDocument "d" (VDict [("key", VStr "1")]) ] w0
  = (Return [delete_action "idx" "b"; delete_action "idx" "c"], w0).
Proof. vm_compute. reflexivity. Qed.

(** * Further properties *)

(** ** utils.py: what [str_to_bool] does not look at *)

Local Arguments PyStr.is_whitespace : simpl never.
Local Arguments PyStr.lower_char : simpl never.

Lemma append_String (c : ascii) (s t : string) :
  (String c s ++ t = String c (s ++ t))%string.
Proof. reflexivity. Qed.

Lemma append_empty (t : string) : ("" ++ t = t)%string.
Proof. reflexivity. Qed.

Lemma lstrip_blank (s : string) : blank s = true → PyStr.lstrip s = "".
Proof.
  induction s as [|c s IH]; [done|]. cbn.
  intros [Hc Hs]%andb_prop. rewrite Hc. by apply IH.
Qed.

Lemma lstrip_app_blank (pre s : string) :
  blank pre = true → PyStr.lstrip (pre ++ s) = PyStr.lstrip s.
Proof.
  induction pre as [|c pre IH]; [done|]. rewrite append_String. cbn.
  intros [Hc Hpre]%andb_prop. rewrite Hc. by apply IH.
Qed.

Lemma rstrip_blank (s : string) : blank s = true → PyStr.rstrip s = "".
Proof.
  induction s as [|c s IH]; [done|]. cbn.
  intros [Hc Hs]%andb_prop. by rewrite IH, Hc.
Qed.

Lemma rstrip_app_blank (s post : string) :
  blank post = true → PyStr.rstrip (s ++ post) = PyStr.rstrip s.
Proof.
  intros Hpost. induction s as [|c s IH].
  - by rewrite append_empty, rstrip_blank.
  - rewrite append_String. cbn. by rewrite IH.
Qed.

Lemma blank_app (s t : string) :
  blank (s ++ t) = blank s && blank t.
Proof.
  induction s as [|c s IH]; [done|]. rewrite append_String. cbn.
  by rewrite IH, andb_assoc.
Qed.

Lemma lstrip_app (s post : string) :
  blank s = true ∨ PyStr.lstrip (s ++ post) = (PyStr.lstrip s ++ post)%string.
Proof.
  induction s as [|c s IH]; [by left|]. rewrite append_String. cbn.
  destruct (PyStr.is_whitespace c); [|by right].
  destruct IH as [IH|IH]; [by left|by right].
Qed.

Lemma strip_padding (pre s post : string) :
  blank pre = true → blank post = true →
  PyStr.strip (pre ++ s ++ post) = PyStr.strip s.
Proof.
  intros Hpre Hpost. unfold PyStr.strip.
  rewrite lstrip_app_blank by done.
  destruct (lstrip_app s post) as [Hs| ->].
  - rewrite !lstrip_blank; [done..|]. by rewrite blank_app, Hs, Hpost.
  - by apply rstrip_app_blank.
Qed.

(** X1. Whitespace before and after the value does not count:
    [str_to_bool] gives the same boolean with and without it (and raises
    with it exactly when it raises without it). *)
Theorem str_to_bool_ignores_padding (pre s post : string) (b : bool) :
  blank pre = true → blank post = true →
  str_to_bool (pre ++ s ++ post) = Return b ↔ str_to_bool s = Return b.
Proof.
  intros Hpre Hpost. unfold str_to_bool.
  rewrite strip_padding by done.
  by repeat case_bool_decide.
Qed.

Lemma str_to_bool_ignores_padding_witness :
  str_to_bool (String (ascii_of_N 9) " " ++ "Yes" ++ String (ascii_of_N 10) "")
  = Return true.
Proof.
  apply (str_to_bool_ignores_padding (String (ascii_of_N 9) " ") "Yes"
           (String (ascii_of_N 10) "") true); reflexivity.
Defined.

Lemma is_whitespace_lower_char (c : ascii) :
  PyStr.is_whitespace (PyStr.lower_char c) = PyStr.is_whitespace c.
Proof. destruct c as [[] [] [] [] [] [] [] []]; vm_compute; reflexivity. Qed.

Lemma lower_lstrip (s : string) :
  PyStr.lower (PyStr.lstrip s) = PyStr.lstrip (PyStr.lower s).
Proof.
  induction s as [|c s IH]; [done|]. cbn.
  rewrite is_whitespace_lower_char.
  by destruct (PyStr.is_whitespace c).
Qed.

Lemma lower_rstrip (s : string) :
  PyStr.lower (PyStr.rstrip s) = PyStr.rstrip (PyStr.lower s).
Proof.
  induction s as [|c s IH]; [done|]. cbn.
  rewrite <- IH, is_whitespace_lower_char.
  destruct (PyStr.rstrip s) as [|d r]; cbn; [|done].
  by destruct (PyStr.is_whitespace c).
Qed.

Lemma lower_strip (s : string) :
  PyStr.lower (PyStr.strip s) = PyStr.strip (PyStr.lower s).
Proof. unfold PyStr.strip. by rewrite lower_rstrip, lower_lstrip. Qed.

(** X2. Letter case does not count: two values with the same lower-cased
    form get the same boolean from [str_to_bool] (and one raises exactly
    when the other does). *)
Theorem str_to_bool_ignores_case (s t : string) (b : bool) :
  PyStr.lower s = PyStr.lower t →
  str_to_bool s = Return b ↔ str_to_bool t = Return b.
Proof.
  intros Hst. unfold str_to_bool.
  rewrite !lower_strip, Hst.
  by repeat case_bool_decide.
Qed.

Lemma str_to_bool_ignores_case_witness :
  str_to_bool "FaLsE" = Return false.
Proof.
  apply (str_to_bool_ignores_case "FaLsE" "false" false); reflexivity.
Defined.

(** X3. A value that is empty or made of whitespace only is no boolean:
    [str_to_bool] raises, and the message quotes the value as it came. *)
Theorem str_to_bool_blank (s : string) :
  blank s = true →
  str_to_bool s = Raise (ValueError ("Cannot convert " ++ s ++ " to a bool")).
Proof.
  intros Hs. unfold str_to_bool, PyStr.strip.
  by rewrite lstrip_blank.
Qed.

Lemma str_to_bool_blank_witness :
  str_to_bool "  " = Raise (ValueError "Cannot convert    to a bool").
Proof. apply (str_to_bool_blank "  "). reflexivity. Defined.

(** ** main.py: paths and [get_value_from_dict] *)

Lemma split_dot_cons (s : string) : ∃ w ws, PyStr.split_dot s = w :: ws.
Proof.
  induction s as [|c s (w & ws & IH)]; cbn; [by eexists _, _|].
  destruct (Ascii.eqb c "."); [by eexists _, _|].
  rewrite IH. by eexists _, _.
Qed.

Lemma split_dot_app (p q : string) :
  PyStr.split_dot (p ++ "." ++ q) = PyStr.split_dot p ++ PyStr.split_dot q.
Proof.
  induction p as [|c p IH]; [done|].
  rewrite append_String. cbn. rewrite IH.
  destruct (Ascii.eqb c "."); [done|].
  by destruct (split_dot_cons p) as (w & ws & ->).
Qed.

Lemma split_dot_dot_free (s : string) :
  Forall (λ key, has_dot key = false) (PyStr.split_dot s).
Proof.
  induction s as [|c s IH]; cbn; [by repeat constructor|].
  destruct (Ascii.eqb c ".") eqn:Hc; [by constructor|].
  destruct (PyStr.split_dot s) as [|w ws]; [by repeat constructor; cbn; rewrite Hc|].
  apply Forall_cons in IH as [Hw Hws].
  constructor; [|done]. cbn. by rewrite Hc, Hw.
Qed.

Lemma split_dot_one (key : string) :
  has_dot key = false → PyStr.split_dot key = [key].
Proof.
  induction key as [|c key IH]; [done|]. cbn.
  intros [Hc Hkey]%orb_false_elim. by rewrite Hc, IH.
Qed.

Lemma join_dot_cons (key : string) (w : string) (ws : list string) :
  join_dot (key :: w :: ws) = (key ++ "." ++ join_dot (w :: ws))%string.
Proof. reflexivity. Qed.

Lemma join_dot_split_dot (s : string) : join_dot (PyStr.split_dot s) = s.
Proof.
  induction s as [|c s IH]; [done|]. cbn.
  destruct (Ascii.eqb_spec c ".") as [->|Hc].
  - destruct (split_dot_cons s) as (w & ws & Hs). rewrite Hs in *.
    rewrite join_dot_cons, IH. reflexivity.
  - destruct (PyStr.split_dot s) as [|w [|w' ws]].
    + cbn in IH. by subst.
    + cbn in *. by subst.
    + rewrite join_dot_cons in *. by rewrite append_String, IH.
Qed.

Lemma split_dot_join_dot (keys : list string) :
  keys ≠ [] → Forall (λ key, has_dot key = false) keys →
  PyStr.split_dot (join_dot keys) = keys.
Proof.
  intros Hne Hfree. induction Hfree as [|key keys Hkey Hkeys IH]; [done|].
  destruct keys as [|w ws]; [by apply split_dot_one|].
  rewrite join_dot_cons, split_dot_app, split_dot_one, IH by done. done.
Qed.

Lemma walk_keys_app (keys1 keys2 : list string) (data : value) :
  walk_keys (keys1 ++ keys2) data
  = match walk_keys keys1 data with
    | Return v => walk_keys keys2 v
    | Raise e => Raise e
    end.
Proof.
  revert data. induction keys1 as [|key keys1 IH]; intros data; [done|].
  cbn. destruct data as [| | | | | |items]; try done.
  by destruct (dict_get key items).
Qed.

(** X4. A path and its keys determine each other: joining the pieces of
    [split] with dots gives the path back; the pieces hold no dot and there
    is at least one (the empty path has the one empty key). *)
Theorem split_dot_round_trip (dot_notation_string : string) :
  join_dot (PyStr.split_dot dot_notation_string) = dot_notation_string
  ∧ Forall (λ key, has_dot key = false) (PyStr.split_dot dot_notation_string)
  ∧ (0 < length (PyStr.split_dot dot_notation_string))%nat.
Proof.
  split_and!.
  - apply join_dot_split_dot.
  - apply split_dot_dot_free.
  - destruct (split_dot_cons dot_notation_string) as (w & ws & ->). cbn. lia.
Qed.

(** X5. Paths compose: looking up [p.q] is looking up [p] and then [q] in
    what was found; an error of the first part is the error of the whole. *)
Theorem get_value_from_dict_compose (p q : string) (data : value) :
  get_value_from_dict (p ++ "." ++ q) data
  = match get_value_from_dict p data with
    | Return v => get_value_from_dict q v
    | Raise e => Raise e
    end.
Proof.
  unfold get_value_from_dict. cbn zeta.
  by rewrite split_dot_app, walk_keys_app.
Qed.

(** X6. A value stored under nested keys is found by the dotted path of
    those keys, when there is at least one key and no key holds a dot. *)
Theorem get_value_from_dict_nest (keys : list string) (v : value) :
  keys ≠ [] → Forall (λ key, has_dot key = false) keys →
  get_value_from_dict (join_dot keys) (nest keys v) = Return v.
Proof.
  intros Hne Hfree. unfold get_value_from_dict. cbn zeta.
  rewrite split_dot_join_dot by done. clear Hne Hfree.
  induction keys as [|key keys IH]; [done|].
  cbn. by rewrite String.eqb_refl.
Qed.

Lemma get_value_from_dict_nest_witness :
  get_value_from_dict "job.refs.org"
    (VDict [("job", VDict [("refs", VDict [("org", VStr "openshift")])])])
  = Return (VStr "openshift").
Proof.
  apply (get_value_from_dict_nest ["job"; "refs"; "org"] (VStr "openshift"));
    [discriminate|by repeat constructor].
Defined.

Lemma walk_keys_raises (keys : list string) (data : value) (e : Exn) :
  walk_keys keys data = Raise e →
  (∃ key, key ∈ keys
          ∧ e = ValueError ("Key " ++ key ++ " not found in the dictionary"))
  ∨ (∃ v, is_dict v = false
          ∧ e = AttributeError
                  ("'" ++ type_name v ++ "' object has no attribute 'keys'")).
Proof.
  revert data. induction keys as [|key keys IH]; intros data; [done|].
  destruct (is_dict data) eqn:Hdict.
  2: { rewrite walk_keys_not_dict by done. intros [= <-]. right. eauto. }
  destruct data as [| | | | | |items]; try discriminate. cbn.
  destruct (dict_get key items) as [v|].
  - intros [(key' & Hin & ->)|Hattr]%IH; [left|by right].
    exists key'. split; [by right|done].
  - intros [= <-]. left. exists key. split; [by left|done].
Qed.

(** X7. The only errors of [get_value_from_dict]: a [ValueError] that
    names one of the keys of the path, or the [AttributeError] of a value on
    the way that is no mapping.  On data that is no mapping it raises that
    [AttributeError] for every path. *)
Theorem get_value_from_dict_errors (dot_notation_string : string)
    (data : value) :
  (∀ e, get_value_from_dict dot_notation_string data = Raise e →
        (∃ key, key ∈ PyStr.split_dot dot_notation_string
                ∧ e = ValueError
                        ("Key " ++ key ++ " not found in the dictionary"))
        ∨ (∃ v, is_dict v = false
                ∧ e = AttributeError
                        ("'" ++ type_name v
                         ++ "' object has no attribute 'keys'")))
  ∧ (is_dict data = false →
     get_value_from_dict dot_notation_string data
     = Raise (AttributeError
                ("'" ++ type_name data ++ "' object has no attribute 'keys'"))).
Proof.
  unfold get_value_from_dict. cbn zeta. split.
  - intros e. apply walk_keys_raises.
  - intros Hdata.
    destruct (split_dot_cons dot_notation_string) as (w & ws & ->).
    by destruct data.
Qed.

Lemma get_value_from_dict_errors_witness :
  get_value_from_dict "" (VStr "nightly")
  = Raise (AttributeError "'str' object has no attribute 'keys'").
Proof.
  apply (proj2 (get_value_from_dict_errors "" (VStr "nightly"))). reflexivity.
Defined.

Lemma dict_get_without_key (key key' : string) (items : list (string * value)) :
  key' ≠ key → dict_get key' (without_key key items) = dict_get key' items.
Proof.
  intros Hne. induction items as [|[k v] items IH]; [done|].
  unfold without_key in *. rewrite filter_cons. cbn.
  destruct (String.eqb_spec k key') as [->|Hk].
  - rewrite decide_True by done. cbn. by rewrite String.eqb_refl.
  - case_decide; [|done]. cbn.
    by destruct (String.eqb_spec k key').
Qed.

Lemma has_dot_split_dot_head (key w : string) (ws : list string) :
  has_dot key = true → PyStr.split_dot key = w :: ws → w ≠ key.
Proof.
  intros Hdot Hsplit ->.
  pose proof (split_dot_dot_free key) as Hfree.
  rewrite Hsplit in Hfree. apply Forall_cons in Hfree as [Hfree _].
  congruence.
Qed.

(** X8. A field whose own name holds a dot cannot be addressed: the result
    for such a path is the same with and without the entry of that name in
    the mapping. *)
Theorem get_value_from_dict_dotted_name (key : string)
    (items : list (string * value)) :
  has_dot key = true →
  get_value_from_dict key (VDict items)
  = get_value_from_dict key (VDict (without_key key items)).
Proof.
  intros Hdot. unfold get_value_from_dict. cbn zeta.
  destruct (split_dot_cons key) as (w & ws & Hsplit). rewrite Hsplit. cbn.
  rewrite dict_get_without_key; [done|].
  by apply (has_dot_split_dot_head key w ws).
Qed.

Lemma get_value_from_dict_dotted_name_witness :
  get_value_from_dict "job.build_id" (VDict [("job.build_id", VInt 7)])
  = Raise (ValueError "Key job not found in the dictionary").
Proof.
  rewrite (get_value_from_dict_dotted_name "job.build_id"
             [("job.build_id", VInt 7)]); reflexivity.
Defined.

(** ** main.py: more on [get_bulk_actions] *)



Lemma later_occurrences_elem_of (comparison_field : string)
    (docs : list Document) (doc : Document) :
  doc ∈ later_occurrences comparison_field docs → doc ∈ docs.
Proof.
  intros (i & Hi & _)%elem_of_select. by apply list_elem_of_lookup_2 in Hi.
Qed.

(** X10. The actions that [get_bulk_actions] returns are delete actions on
    the target index for identifiers of documents of the sequence, and there
    are fewer of them than documents: a sequence is never deleted whole. *)
Theorem get_bulk_actions_well_formed {S : Type}
    (comparison_field index : string) (documents : list Document)
    (actions : list Action) (w w' : World S) :
  get_bulk_actions comparison_field index documents w = (Return actions, w') →
  Forall (λ action, ∃ doc,
            doc ∈ documents
            ∧ action = [("_op_type", "delete"); ("_index", index);
                        ("_id", _id doc)]) actions
  ∧ (documents ≠ [] → (length actions < length documents)%nat).
Proof.
  intros (Hkeyed & -> & ->)%get_bulk_actions_returns. split.
  - apply Forall_fmap, Forall_forall. intros doc Hdoc. exists doc.
    split; [|done]. by apply (later_occurrences_elem_of comparison_field).
  - intros Hne. rewrite length_fmap.
    pose proof (later_occurrences_count comparison_field documents) as Hcount.
    rewrite keys_of_length in Hcount by done.
    destruct documents as [|doc docs]; [done|].
    apply Forall_cons in Hkeyed as [[k Hk] _].
    assert (k ∈ (list_to_set (keys_of comparison_field (doc :: docs))
                 : gset HKey)) as Hin.
    { apply elem_of_list_to_set. unfold keys_of. cbn. rewrite Hk. by left. }
    assert (size (list_to_set (keys_of comparison_field (doc :: docs))
                  : gset HKey) ≠ 0)%nat as Hsize.
    { apply size_non_empty_iff. set_solver. }
    lia.
Qed.

Lemma get_bulk_actions_well_formed_witness :
  (length [delete_action "idx" "3"; delete_action "idx" "4"]
   < length docABAA)%nat.
Proof.
  refine (proj2 (get_bulk_actions_well_formed "key" "idx" docABAA
                   [delete_action "idx" "3"; delete_action "idx" "4"]
                   w0 w0 _) _); [vm_compute; reflexivity|discriminate].
Defined.

Lemma select_ext (P Q : nat → Document → bool) (docs : list Document) :
  (∀ i doc, docs !! i = Some doc → P i doc = Q i doc) →
  select P docs = select Q docs.
Proof.
  intros Hext. unfold select. f_equal. apply filter_ext_elem.
  intros [i doc] Hin. cbn.
  apply elem_of_lookup_imap in Hin as (j & d & [= -> ->] & Hj).
  by rewrite (Hext j d Hj).
Qed.

Lemma select_app (P : nat → Document → bool) (docs1 docs2 : list Document) :
  select P (docs1 ++ docs2)
  = select P docs1 ++ select (λ i, P (length docs1 + i)%nat) docs2.
Proof.
  induction docs2 as [|doc docs2 IH] using rev_ind.
  - by rewrite !app_nil_r.
  - by rewrite app_assoc, !select_snoc, IH, length_app, app_assoc.
Qed.

Lemma later_occurrences_app (comparison_field : string)
    (docs1 docs2 : list Document) :
  later_occurrences comparison_field (docs1 ++ docs2)
  = later_occurrences comparison_field docs1
    ++ select (λ i, is_later_occurrence comparison_field (docs1 ++ docs2)
                      (length docs1 + i)%nat) docs2.
Proof.
  unfold later_occurrences. rewrite select_app. f_equal.
  apply select_ext. intros i doc Hi.
  apply is_later_occurrence_prefix. apply lookup_lt_Some in Hi. lia.
Qed.

(** X11. The scan decides as it goes: when [get_bulk_actions] returns for a
    sequence, it returns for each beginning of the sequence too, and the
    actions for the beginning are the first of the actions for the whole. *)
Theorem get_bulk_actions_prefix {S : Type}
    (comparison_field index : string) (docs1 docs2 : list Document)
    (actions : list Action) (w w' : World S) :
  get_bulk_actions comparison_field index (docs1 ++ docs2) w
  = (Return actions, w') →
  ∃ actions1 actions2,
    get_bulk_actions comparison_field index docs1 w = (Return actions1, w)
    ∧ actions = actions1 ++ actions2
    ∧ (length actions2 ≤ length docs2)%nat.
Proof.
  intros (Hkeyed & -> & ->)%get_bulk_actions_returns.
  apply Forall_app in Hkeyed as [Hkeyed1 _].
  rewrite later_occurrences_app, fmap_app.
  eexists _, _. split_and!; [|done|].
  - rewrite get_bulk_actions_spec by by apply keyed_hashable_or_failing.
    destruct (keyed_failures_nil comparison_field _ Hkeyed1) as [-> ->].
    destruct w. cbn. by rewrite app_nil_r.
  - rewrite length_fmap. unfold select.
    rewrite length_fmap.
    etrans; [apply length_filter|]. by rewrite length_imap.
Qed.

Lemma get_bulk_actions_prefix_witness :
  ∃ actions1 actions2,
    get_bulk_actions "key" "idx" (take 3 docABAA) w0 = (Return actions1, w0)
    ∧ [delete_action "idx" "3"; delete_action "idx" "4"]
      = actions1 ++ actions2
    ∧ (length actions2 ≤ 1)%nat.
Proof.
  apply (get_bulk_actions_prefix "key" "idx" (take 3 docABAA)
           (drop 3 docABAA) _ w0 w0).
  vm_compute. reflexivity.
Defined.

(** X12. How many documents are deleted does not depend on the scan order:
    when [get_bulk_actions] returns for a sequence, it returns as many
    actions for every rearrangement of the sequence. *)
Theorem get_bulk_actions_count_permutation {S : Type}
    (comparison_field index : string) (docs docs' : list Document)
    (actions : list Action) (w w' : World S) :
  docs ≡ₚ docs' →
  get_bulk_actions comparison_field index docs w = (Return actions, w') →
  ∃ actions',
    get_bulk_actions comparison_field index docs' w = (Return actions', w)
    ∧ length actions' = length actions.
Proof.
  intros Hperm (Hkeyed & -> & ->)%get_bulk_actions_returns.
  assert (Forall (λ doc, is_Some (doc_key comparison_field doc)) docs')
    as Hkeyed' by by rewrite <- Hperm.
  eexists. split.
  - rewrite get_bulk_actions_spec by by apply keyed_hashable_or_failing.
    destruct (keyed_failures_nil comparison_field _ Hkeyed') as [-> ->].
    destruct w. cbn. by rewrite app_nil_r.
  - rewrite !length_fmap.
    pose proof (later_occurrences_count comparison_field docs) as Hcount.
    pose proof (later_occurrences_count comparison_field docs') as Hcount'.
    assert (keys_of comparison_field docs ≡ₚ keys_of comparison_field docs')
      as Hkeys by (unfold keys_of; by rewrite Hperm).
    pose proof (Permutation_length Hkeys) as Hlen.
    assert ((list_to_set (keys_of comparison_field docs) : gset HKey)
            = list_to_set (keys_of comparison_field docs')) as Hset
      by by rewrite Hkeys.
    rewrite <- Hset, <- Hlen in Hcount'. lia.
Qed.

Lemma get_bulk_actions_count_permutation_witness :
  ∃ actions',
    get_bulk_actions "key" "idx" (reverse docABAA) w0 = (Return actions', w0)
    ∧ length actions' = 2%nat.
Proof.
  apply (get_bulk_actions_count_permutation "key" "idx" docABAA
           (reverse docABAA)
           [delete_action "idx" "3"; delete_action "idx" "4"] w0 w0).
  - by rewrite reverse_Permutation.
  - vm_compute. reflexivity.
Defined.

Lemma first_occurrences_keys (comparison_field : string)
    (docs : list Document) :
  (list_to_set (keys_of comparison_field
                  (first_occurrences comparison_field docs)) : gset HKey)
  = list_to_set (keys_of comparison_field docs).
Proof.
  apply set_eq. intros k. rewrite !elem_of_list_to_set. split.
  - intros (doc & Hdoc & Hk)%list_elem_of_omap.
    apply elem_of_select in Hdoc as (i & Hi & _).
    apply list_elem_of_omap. exists doc.
    split; [by apply list_elem_of_lookup_2 in Hi|done].
  - intros (i & doc & Hi & Hk & Hnot & _)%first_document_of_key.
    apply list_elem_of_omap. exists doc. split; [|done].
    apply elem_of_select. exists i. split; [done|].
    unfold is_first_occurrence, is_later_occurrence in *. rewrite Hk in *.
    apply bool_decide_eq_false in Hnot. by apply bool_decide_eq_true.
Qed.

Lemma remove_deleted_first_occurrences (comparison_field index : string)
    (docs : list Document) :
  Forall (λ doc, is_Some (doc_key comparison_field doc)) docs →
  NoDup (_id <$> docs) →
  remove_deleted
    (delete_action index ∘ _id <$> later_occurrences comparison_field docs)
    docs
  = first_occurrences comparison_field docs.
Proof.
  intros Hkeyed Hids. unfold remove_deleted, first_occurrences.
  rewrite <- select_filter. apply select_ext. intros i doc Hi.
  rewrite deleted_ids_delete_actions.
  rewrite Forall_forall in Hkeyed.
  destruct (Hkeyed doc) as [k Hk]; [by apply list_elem_of_lookup_2 in Hi|].
  destruct (is_later_occurrence comparison_field docs i doc) eqn:Hlater.
  - assert (is_first_occurrence comparison_field docs i doc = false) as ->.
    { unfold is_first_occurrence, is_later_occurrence in *. rewrite Hk in *.
      apply bool_decide_eq_true in Hlater. apply bool_decide_eq_false.
      intros Hnot. by apply Hnot. }
    apply bool_decide_eq_false. intros Hnot. apply Hnot.
    apply list_elem_of_fmap. exists doc. split; [done|].
    apply elem_of_select. eauto.
  - assert (is_first_occurrence comparison_field docs i doc = true) as ->.
    { unfold is_first_occurrence, is_later_occurrence in *. rewrite Hk in *.
      apply bool_decide_eq_false in Hlater. by apply bool_decide_eq_true. }
    apply bool_decide_eq_true.
    intros (doc' & Hid & (j & Hj & Hlater')%elem_of_select)%list_elem_of_fmap.
    assert (i = j) as ->.
    { apply (NoDup_lookup (_id <$> docs) i j (_id doc)); [done|..].
      - by rewrite list_lookup_fmap, Hi.
      - by rewrite list_lookup_fmap, Hj, Hid. }
    congruence.
Qed.

(** X13. With identifiers that are unique in the sequence, the documents
    that the returned actions leave are the first occurrences, and every key
    value of the sequence is still there among them: no key value is lost. *)
Theorem get_bulk_actions_keeps_every_key {S : Type}
    (comparison_field index : string) (documents : list Document)
    (actions : list Action) (w w' : World S) :
  get_bulk_actions comparison_field index documents w = (Return actions, w') →
  NoDup (_id <$> documents) →
  remove_deleted actions documents
  = first_occurrences comparison_field documents
  ∧ (list_to_set (keys_of comparison_field
                    (remove_deleted actions documents)) : gset HKey)
    = list_to_set (keys_of comparison_field documents).
Proof.
  intros (Hkeyed & -> & ->)%get_bulk_actions_returns Hids.
  rewrite remove_deleted_first_occurrences by done.
  split; [done|apply first_occurrences_keys].
Qed.

Lemma get_bulk_actions_keeps_every_key_witness :
  remove_deleted [delete_action "idx" "3"; delete_action "idx" "4"] docABAA
  = first_occurrences "key" docABAA.
Proof.
  refine (proj1 (get_bulk_actions_keeps_every_key "key" "idx" docABAA
                   [delete_action "idx" "3"; delete_action "idx" "4"]
                   w0 w0 _ _)).
  - vm_compute. reflexivity.
  - cbn. repeat (constructor; [set_solver|]). constructor.
Defined.

Lemma size_list_to_set_le (l : list HKey) :
  (size (list_to_set l : gset HKey) ≤ length l)%nat.
Proof.
  induction l as [|k l IH]; [done|].
  rewrite list_to_set_cons, size_union_alt, size_singleton. cbn.
  assert (size (list_to_set l ∖ {[k]} : gset HKey)
          ≤ size (list_to_set l : gset HKey))%nat
    by (apply subseteq_size; set_solver).
  lia.
Qed.

Lemma size_list_to_set_NoDup (l : list HKey) :
  size (list_to_set l : gset HKey) = length l → NoDup l.
Proof.
  induction l as [|k l IH]; [constructor|].
  rewrite list_to_set_cons. cbn. intros Hsize.
  pose proof (size_list_to_set_le l) as Hle.
  destruct (decide (k ∈ l)) as [Hin|Hnotin].
  - replace ({[k]} ∪ list_to_set l : gset HKey) with (list_to_set l : gset HKey)
      in Hsize by set_solver.
    lia.
  - rewrite size_union, size_singleton in Hsize by set_solver.
    constructor; [done|]. apply IH. lia.
Qed.

(** X14. On documents that all have a key, [get_bulk_actions] returns no
    action exactly when no two documents have the same key. *)
Theorem get_bulk_actions_nil_iff {S : Type}
    (comparison_field index : string) (documents : list Document)
    (w : World S) :
  Forall (λ doc, is_Some (doc_key comparison_field doc)) documents →
  get_bulk_actions comparison_field index documents w = (Return [], w)
  ↔ NoDup (keys_of comparison_field documents).
Proof.
  intros Hkeyed. split; [|by apply get_bulk_actions_NoDup].
  intros (_ & Hnil & _)%get_bulk_actions_returns.
  apply size_list_to_set_NoDup.
  pose proof (later_occurrences_count comparison_field documents) as Hcount.
  symmetry in Hnil. apply fmap_nil_inv in Hnil. rewrite Hnil in Hcount.
  cbn in Hcount. lia.
Qed.

Lemma get_bulk_actions_nil_iff_witness :
  get_bulk_actions "key" "idx" (take 2 docABAA) w0 = (Return [], w0).
Proof.
  apply (get_bulk_actions_nil_iff "key" "idx" (take 2 docABAA) w0).
  - repeat constructor; by eexists.
  - cbn. repeat (constructor; [set_solver|]). constructor.
Defined.

(** ** config.py and [main] *)

Ltac trace_tail :=
  cbn [fst snd trace cluster]; rewrite <- ?app_assoc; cbn [app]; by eexists.

Section RunFacts.

Context {S : Type}.
Variable opensearch_client : OpenSearch S.

(** With the required settings, the first two things [main] does are to
    build the client and to scan the index. *)
Lemma main_starts_with_scan config es_index es_url es_user es_password
    comparison_field (w : World S) :
  ES_INDEX config = Some es_index →
  ES_URL config = Some es_url →
  ES_USER config = Some es_user →
  ES_PASSWORD config = Some es_password →
  DOCUMENT_COMPARISON_FIELD config = Some comparison_field →
  ∃ evs,
    trace (main opensearch_client config w).2
    = trace w ++ NewOpenSearch es_url es_user es_password
              :: HelpersScan es_index :: evs.
Proof.
  intros Hindex Hurl Huser Hpassword Hfield.
  rewrite (main_complete _ config es_index es_url es_user es_password
             comparison_field) by done.
  cbn zeta.
  destruct (helpers_scan opensearch_client es_index (cluster w))
    as [documents|e]; [|by exists []].
  match goal with
  | |- context [get_bulk_actions _ _ _ ?w2] =>
      destruct (get_bulk_actions_run comparison_field es_index documents w2)
        as (out & docs' & -> & _)
  end.
  cbn [cluster trace].
  destruct out as [[|action actions]|e]; [trace_tail| |trace_tail].
  destruct (str_to_bool (DRY_RUN config)) as [[]|e]; [| |trace_tail].
  - rewrite log_actions_run. trace_tail.
  - match goal with
    | |- context [remove_documents _ _ _ ?w4] =>
        destruct (remove_documents_run opensearch_client (action :: actions)
                    es_index w4) as (out & c & evs & -> & _)
    end.
    trace_tail.
Qed.

(** A real run on documents that all have a key, some of them more than
    once. *)
Lemma main_real_run config es_index es_url es_user es_password
    comparison_field documents (w : World S) :
  ES_INDEX config = Some es_index →
  ES_URL config = Some es_url →
  ES_USER config = Some es_user →
  ES_PASSWORD config = Some es_password →
  DOCUMENT_COMPARISON_FIELD config = Some comparison_field →
  str_to_bool (DRY_RUN config) = Return false →
  helpers_scan opensearch_client es_index (cluster w) = Return documents →
  Forall (λ doc, is_Some (doc_key comparison_field doc)) documents →
  later_occurrences comparison_field documents ≠ [] →
  main opensearch_client config w
  = remove_documents opensearch_client
      (delete_action es_index ∘ _id
       <$> later_occurrences comparison_field documents)
      es_index
      (mkWorld (cluster w)
         (trace w ++ [NewOpenSearch es_url es_user es_password;
                      HelpersScan es_index;
                      LoggerInfo (MsgFoundDocuments 1 es_index);
                      LoggerInfo
                        (MsgFoundDuplicated
                           (length (later_occurrences comparison_field
                                      documents)))])).
Proof.
  intros Hindex Hurl Huser Hpassword Hfield Hflag Hscan Hkeyed Hlater.
  rewrite (main_complete _ config es_index es_url es_user es_password
             comparison_field) by done.
  rewrite Hscan, Hflag. cbn zeta.
  rewrite get_bulk_actions_spec by by apply keyed_hashable_or_failing.
  destruct (keyed_failures_nil comparison_field _ Hkeyed) as [-> ->].
  cbn [cluster trace]. rewrite app_nil_r, <- !app_assoc. cbn [app].
  rewrite length_fmap.
  destruct (later_occurrences comparison_field documents) as [|doc later];
    [done|].
  reflexivity.
Qed.


End RunFacts.

(** X15. The environment variables that a run cannot do without are
    [INDEX], [ES_URL], [ES_USER], [ES_PASSWORD] and
    [DOCUMENT_COMPARISON_FIELD]: [main] ends with the configuration error,
    having done nothing, exactly when one of them is unset.  ([ES_INDEX] is
    no variable of the environment: the index name is read from [INDEX].) *)
Theorem main_required_variables {S : Type} (opensearch_client : OpenSearch S)
    (environ : gmap string string) (w : World S) :
  main opensearch_client (load_config environ) w
  = (Raise FailedToGetAllEnvironmentVariables, w)
  ↔ environ !! "INDEX" = None ∨ environ !! "ES_URL" = None
    ∨ environ !! "ES_USER" = None ∨ environ !! "ES_PASSWORD" = None
    ∨ environ !! "DOCUMENT_COMPARISON_FIELD" = None.
Proof.
  split; [|apply (main_incomplete _ (load_config environ))].
  intros Hrun.
  destruct (config_complete_or_not (load_config environ))
    as [(es_index & es_url & es_user & es_password & comparison_field
         & Hindex & Hurl & Huser & Hpassword & Hfield)|Hnone]; [|done].
  destruct (main_starts_with_scan opensearch_client (load_config environ)
              es_index es_url es_user es_password comparison_field w)
    as [evs Hevs]; [done..|].
  rewrite Hrun in Hevs. cbn in Hevs.
  apply (f_equal length) in Hevs. rewrite length_app in Hevs. cbn in Hevs. lia.
Qed.

(** X16. Deleting is the default: when [DRY_RUN] is unset and the scan
    yields documents that all have a key, some of them more than once,
    [main] submits one batch, made of the delete actions of the later
    occurrences. *)
Theorem main_deletes_by_default {S : Type} (opensearch_client : OpenSearch S)
    (environ : gmap string string) (w : World S)
    (es_index es_url es_user es_password comparison_field : string)
    (documents : list Document) :
  environ !! "DRY_RUN" = None →
  environ !! "INDEX" = Some es_index →
  environ !! "ES_URL" = Some es_url →
  environ !! "ES_USER" = Some es_user →
  environ !! "ES_PASSWORD" = Some es_password →
  environ !! "DOCUMENT_COMPARISON_FIELD" = Some comparison_field →
  helpers_scan opensearch_client es_index (cluster w) = Return documents →
  Forall (λ doc, is_Some (doc_key comparison_field doc)) documents →
  later_occurrences comparison_field documents ≠ [] →
  ∃ evs,
    trace (main opensearch_client (load_config environ) w).2 = trace w ++ evs
    ∧ submitted_batches evs
      = [delete_action es_index ∘ _id
         <$> later_occurrences comparison_field documents].
Proof.
  intros Hdry Hindex Hurl Huser Hpassword Hfield Hscan Hkeyed Hlater.
  rewrite (main_real_run opensearch_client (load_config environ) es_index
             es_url es_user es_password comparison_field documents w);
    try done.
  2: { cbn. by rewrite Hdry. }
  match goal with
  | |- context [remove_documents _ ?acts _ ?w4] =>
      destruct (remove_documents_run opensearch_client acts es_index w4)
        as (out & c & evs & -> & Hevs)
  end.
  cbn [snd trace]. rewrite <- !app_assoc. cbn [app].
  eexists. split; [done|].
  unfold submitted_batches in *. cbn. by rewrite Hevs.
Qed.

Lemma main_deletes_by_default_witness :
  ∃ evs,
    trace (main healthy_client (load_config environ_ABAA) world_ABAA).2
    = [] ++ evs
    ∧ submitted_batches evs
      = [delete_action "jobs" ∘ _id <$> later_occurrences "key" docABAA].
Proof.
  apply (main_deletes_by_default healthy_client environ_ABAA world_ABAA
           "jobs" "https://opensearch:9200" "admin" "secret" "key" docABAA);
    try (vm_compute; reflexivity).
  - repeat constructor; by eexists.
  - vm_compute. discriminate.
Defined.



Lemma not_keyed_raises {S : Type} (comparison_field index : string)
    (documents : list Document) (w : World S) :
  ¬ Forall (λ doc, is_Some (doc_key comparison_field doc)) documents →
  ∃ e docs',
    get_bulk_actions comparison_field index documents w
    = (Raise e, mkWorld (cluster w)
                  (trace w ++ failure_logs comparison_field docs'))
    ∧ ((∃ excs, excs ≠ []
                ∧ e = ExceptionGroup
                        "failed to get all documents comparable field" excs)
       ∨ (∃ msg, e = TypeError msg)).
Proof.
  intros Hnot.
  destruct (get_bulk_actions_run comparison_field index documents w)
    as (out & docs' & Hrun & _).
  destruct out as [actions|e].
  { by apply get_bulk_actions_returns in Hrun as (Hkeyed & _). }
  exists e, docs'. split; [done|].
  destruct (first_unhashable comparison_field documents)
    as [Hall|(docs1 & doc & docs2 & e' & -> & Hall & He)].
  - rewrite get_bulk_actions_spec in Hrun by done.
    destruct (failures_of comparison_field documents) as [|e1 excs];
      [done|].
    left. exists (e1 :: excs). split; [done|]. by simplify_eq.
  - rewrite (get_bulk_actions_unhashable _ _ _ _ _ e') in Hrun by done.
    simplify_eq.
    apply doc_unhashable_iff in He as (v & _ & [-> _]%py_hash_raises).
    right. by eexists.
Qed.

(** X18. One document without a usable key stops every deletion: when the
    scan yields a sequence in which some document has no key (its extraction
    raises, or its value is unhashable), [main] raises the aggregated
    extraction error or the [TypeError], whatever [DRY_RUN] says, and has
    issued no batch delete and no refresh. *)
Theorem main_extraction_problem_deletes_nothing {S : Type}
    (opensearch_client : OpenSearch S) (config : Config) (w : World S)
    (es_index es_url es_user es_password comparison_field : string)
    (documents : list Document) :
  ES_INDEX config = Some es_index →
  ES_URL config = Some es_url →
  ES_USER config = Some es_user →
  ES_PASSWORD config = Some es_password →
  DOCUMENT_COMPARISON_FIELD config = Some comparison_field →
  helpers_scan opensearch_client es_index (cluster w) = Return documents →
  ¬ Forall (λ doc, is_Some (doc_key comparison_field doc)) documents →
  ∃ e evs,
    main opensearch_client config w
    = (Raise e, mkWorld (cluster w) (trace w ++ evs))
    ∧ Forall (λ ev, is_mutation ev = false) evs
    ∧ ((∃ excs, excs ≠ []
                ∧ e = ExceptionGroup
                        "failed to get all documents comparable field" excs)
       ∨ (∃ msg, e = TypeError msg)).
Proof.
  intros Hindex Hurl Huser Hpassword Hfield Hscan Hnot.
  rewrite (main_complete _ config es_index es_url es_user es_password
             comparison_field) by done.
  rewrite Hscan. cbn zeta.
  match goal with
  | |- context [get_bulk_actions _ _ _ ?w2] =>
      destruct (not_keyed_raises comparison_field es_index documents w2 Hnot)
        as (e & docs' & -> & He)
  end.
  cbn [cluster trace]. rewrite <- !app_assoc. cbn [app].
  eexists _, _. split_and!; [done| |done].
  destruct (failure_logs_quiet comparison_field docs') as (Hquiet & _ & _).
  quiet_events.
Qed.

Lemma main_extraction_problem_deletes_nothing_witness :
  ∃ e evs,
    main healthy_client (example_config "false")
      (mkWorld (docABAA ++ [doc_missing]) [])
    = (Raise e, mkWorld (docABAA ++ [doc_missing]) ([] ++ evs))
    ∧ Forall (λ ev, is_mutation ev = false) evs
    ∧ ((∃ excs, excs ≠ []
                ∧ e = ExceptionGroup
                        "failed to get all documents comparable field" excs)
       ∨ (∃ msg, e = TypeError msg)).
Proof.
  apply (main_extraction_problem_deletes_nothing healthy_client
           (example_config "false") (mkWorld (docABAA ++ [doc_missing]) [])
           "jobs" "https://opensearch:9200" "admin" "secret" "key"
           (docABAA ++ [doc_missing])); try reflexivity.
  intros Hall. apply Forall_app in Hall as [_ Hmissing].
  apply Forall_inv in Hmissing. by destruct Hmissing.
Defined.

(** X19. Without duplicates nothing is deleted and the flag is not read:
    when the scan yields documents that all have a key, each key once (an
    empty index too), [main] returns after the record of no duplicates, with
    the scan as its only call to the index, for every value of [DRY_RUN]. *)
Theorem main_without_duplicates {S : Type} (opensearch_client : OpenSearch S)
    (config : Config) (w : World S)
    (es_index es_url es_user es_password comparison_field : string)
    (documents : list Document) :
  ES_INDEX config = Some es_index →
  ES_URL config = Some es_url →
  ES_USER config = Some es_user →
  ES_PASSWORD config = Some es_password →
  DOCUMENT_COMPARISON_FIELD config = Some comparison_field →
  helpers_scan opensearch_client es_index (cluster w) = Return documents →
  Forall (λ doc, is_Some (doc_key comparison_field doc)) documents →
  NoDup (keys_of comparison_field documents) →
  main opensearch_client config w
  = (Return tt,
     mkWorld (cluster w)
       (trace w ++ [NewOpenSearch es_url es_user es_password;
                    HelpersScan es_index;
                    LoggerInfo (MsgFoundDocuments 1 es_index);
                    LoggerInfo (MsgFoundDuplicated 0);
                    LoggerInfo (MsgNoDuplicates es_index)])).
Proof.
  intros Hindex Hurl Huser Hpassword Hfield Hscan Hkeyed Hnodup.
  rewrite (main_complete _ config es_index es_url es_user es_password
             comparison_field) by done.
  rewrite Hscan. cbn zeta.
  rewrite get_bulk_actions_NoDup by done.
  cbn [cluster trace]. by rewrite <- !app_assoc.
Qed.

Lemma main_without_duplicates_witness :
  main healthy_client (example_config "maybe") (mkWorld [] [])
  = (Return tt,
     mkWorld []
       [NewOpenSearch "https://opensearch:9200" "admin" "secret";
        HelpersScan "jobs";
        LoggerInfo (MsgFoundDocuments 1 "jobs");
        LoggerInfo (MsgFoundDuplicated 0);
        LoggerInfo (MsgNoDuplicates "jobs")]).
Proof.
  apply (main_without_duplicates healthy_client (example_config "maybe")
           (mkWorld [] []) "jobs" "https://opensearch:9200" "admin" "secret"
           "key" []); try reflexivity; constructor.
Defined.

(** X20. The record written after the scan counts the tuple that [tee]
    returns, not the documents: it says 1 whatever the scan yields. *)
Theorem main_logs_one_document {S : Type} (opensearch_client : OpenSearch S)
    (config : Config) (w : World S)
    (es_index es_url es_user es_password comparison_field : string)
    (documents : list Document) :
  ES_INDEX config = Some es_index →
  ES_URL config = Some es_url →
  ES_USER config = Some es_user →
  ES_PASSWORD config = Some es_password →
  DOCUMENT_COMPARISON_FIELD config = Some comparison_field →
  helpers_scan opensearch_client es_index (cluster w) = Return documents →
  ∃ evs,
    trace (main opensearch_client config w).2
    = trace w ++ NewOpenSearch es_url es_user es_password
              :: HelpersScan es_index
              :: LoggerInfo (MsgFoundDocuments 1 es_index) :: evs.
Proof.
  intros Hindex Hurl Huser Hpassword Hfield Hscan.
  rewrite (main_complete _ config es_index es_url es_user es_password
             comparison_field) by done.
  rewrite Hscan. cbn zeta.
  match goal with
  | |- context [get_bulk_actions _ _ _ ?w2] =>
      destruct (get_bulk_actions_run comparison_field es_index documents w2)
        as (out & docs' & -> & _)
  end.
  cbn [cluster trace].
  destruct out as [[|action actions]|e]; [trace_tail| |trace_tail].
  destruct (str_to_bool (DRY_RUN config)) as [[]|e]; [| |trace_tail].
  - rewrite log_actions_run. trace_tail.
  - match goal with
    | |- context [remove_documents _ _ _ ?w4] =>
        destruct (remove_documents_run opensearch_client (action :: actions)
                    es_index w4) as (out & c & evs & -> & _)
    end.
    trace_tail.
Qed.

Lemma main_logs_one_document_witness :
  ∃ evs,
    trace (main healthy_client (example_config "true") world_ABAA).2
    = [] ++ NewOpenSearch "https://opensearch:9200" "admin" "secret"
         :: HelpersScan "jobs"
         :: LoggerInfo (MsgFoundDocuments 1 "jobs") :: evs.
Proof.
  by apply (main_logs_one_document healthy_client (example_config "true")
              world_ABAA "jobs" "https://opensearch:9200" "admin" "secret"
              "key" docABAA).
Defined.







(** ** The locals of the scan loop *)

(** X23. Every scanned document is accounted for once: from any locals,
    a loop that runs to its end has, for each document, added a key to the
    seen keys, an action to the actions or an exception to the exceptions;
    and it has only added: the seen keys, the actions and the exceptions it
    started from are still there. *)
Theorem for_doc_in_accounts {S : Type} (comparison_field index : string)
    (documents : list Document) (st st' : Locals) (w w' : World S) :
  for_doc_in comparison_field index documents st w = (Return st', w') →
  (size (seen_values st') + length (bulk_actions st')
   + length (exceptions st')
   = size (seen_values st) + length (bulk_actions st)
     + length (exceptions st) + length documents)%nat
  ∧ seen_values st ⊆ seen_values st'
  ∧ bulk_actions st `prefix_of` bulk_actions st'
  ∧ exceptions st `prefix_of` exceptions st'.
Proof.
  revert st w. induction documents as [|doc docs IH]; intros st w.
  { cbn. intros [= <- <-]. split_and!; [lia|done..]. }
  cbn. unfold mbind, M_bind, bind.
  destruct (doc_kind comparison_field doc)
    as [(e & He & _ & _)|[(e & _ & He & _)|(k & _ & _ & Hk)]].
  - rewrite (loop_body_failure _ _ _ e) by done.
    intros (Hcount & Hseen & Hacts & Hexcs)%IH. cbn in *.
    rewrite length_app in Hcount. cbn in Hcount.
    split_and!; [lia|done..|].
    etrans; [|exact Hexcs]. by apply prefix_app_r.
  - by rewrite (loop_body_unhashable _ _ _ e) by done.
  - rewrite (loop_body_keyed _ _ _ k) by done.
    case_bool_decide as Hin;
      intros (Hcount & Hseen & Hacts & Hexcs)%IH; cbn in *.
    + rewrite length_app in Hcount. cbn in Hcount.
      split_and!; [lia|done| |done].
      etrans; [|exact Hacts]. by apply prefix_app_r.
    + rewrite size_union, size_singleton in Hcount by set_solver.
      split_and!; [lia|set_solver|done..].
Qed.

Lemma for_doc_in_accounts_witness :
  ∃ st' w',
    for_doc_in "key" "idx" docs_missing_B init_locals w0 = (Return st', w')
    ∧ (size (seen_values st') + length (bulk_actions st')
       + length (exceptions st') = 6)%nat.
Proof.
  eexists _, _. split; [vm_compute; reflexivity|].
  refine (proj1 (for_doc_in_accounts "key" "idx" docs_missing_B init_locals
                   _ w0 _ _)).
  vm_compute. reflexivity.
Defined.
